(** * lxf: the ORM layer (www/orm.py) and the request adapter (www/lxfweb.py)

    A shallow embedding of the schema builder, the active-record
    operations, the query executor and the request handler adapter,
    followed by the properties of the specification that concern them.

    Python strings are [string]s, dictionaries read by key are [gmap]s,
    dictionaries whose iteration order matters are association lists in
    insertion order, coroutines are run to completion in a state monad
    whose result is a value or a raised exception. *)

From Stdlib Require Import ZArith List Ascii String Lia Bool.
From stdpp Require Import base option list strings gmap fin_maps.

Set Warnings "-register-all".

(* ===================================================================== *)
(** * Python values, exceptions and the effect monad                     *)
(* ===================================================================== *)

Module Py.

(** The values that flow through the two modules: query arguments, row
    cells, decoded JSON, keyword arguments.  [PyCallable] is a named
    zero-argument function (a default-value generator), [PyObject] an
    object known only by its name (the request, an uploaded file).
    Floating-point numbers play no part in what follows and are left
    out. *)
Inductive pyval : Type :=
| PyNone
| PyBool (b : bool)
| PyInt (z : Z)
| PyStr (s : string)
| PyTuple (items : list pyval)
| PyList (items : list pyval)
| PyDict (items : list (string * pyval))
| PyCallable (fname : string)
| PyObject (tag : string).

(** [x is None] *)
Definition is_none (v : pyval) : bool :=
  match v with PyNone => true | _ => false end.

(** [isinstance(x, int)]: [bool] is a subclass of [int]. *)
Definition isinstance_int (v : pyval) : bool :=
  match v with PyInt _ | PyBool _ => true | _ => false end.

(** [isinstance(x, tuple)] *)
Definition isinstance_tuple (v : pyval) : bool :=
  match v with PyTuple _ => true | _ => false end.

(** [isinstance(x, dict)] *)
Definition isinstance_dict (v : pyval) : bool :=
  match v with PyDict _ => true | _ => false end.

(** [callable(x)] *)
Definition callable (v : pyval) : bool :=
  match v with PyCallable _ => true | _ => false end.

(** Truth value of a [str]: the empty string is false. *)
Definition str_truthy (s : string) : bool :=
  match s with EmptyString => false | String _ _ => true end.

(** Truth value of a [str]-or-[None]. *)
Definition opt_truthy (o : option string) : bool :=
  match o with Some s => str_truthy s | None => false end.

(** Truth value of an [int]-or-[None]. *)
Definition optint_truthy (o : option Z) : bool :=
  match o with Some z => negb (z =? 0)%Z | None => false end.

(** Exception classes that the modelled code raises or lets through. *)
Inductive exn_class : Type :=
| NameError | ValueError | TypeError | AttributeError | KeyError
| IndexError | APIError | DriverError.

(** An exception: its class, the message template and the operands of the
    [%] formatting (kept apart, so that no [repr] has to be modelled). *)
Record exn : Type := Exn {
  exn_cls : exn_class;
  exn_template : string;
  exn_operands : list pyval
}.

Inductive result (A : Type) : Type :=
| Ok (a : A)
| Raise (e : exn).
Arguments Ok {A} a.
Arguments Raise {A} e.

Definition is_raise {A} (r : result A) : bool :=
  match r with Raise _ => true | Ok _ => false end.

(** Python 3 has no [StandardError]: evaluating the name in
    [raise StandardError(...)] raises [NameError] before the message is
    formatted. *)
Definition StandardError_unbound : exn :=
  Exn NameError "name '%s' is not defined" [PyStr "StandardError"].

(** State-and-exception monad: the state survives a raise. *)
Definition M (S A : Type) : Type := S → S * result A.

#[global] Instance result_ret : MRet result := λ A a, Ok a.
#[global] Instance result_bind : MBind result := λ A B k r,
  match r with Ok a => k a | Raise e => Raise e end.

#[global] Instance M_ret {S} : MRet (M S) := λ A a s, (s, Ok a).
#[global] Instance M_bind {S} : MBind (M S) := λ A B k m s,
  match m s with
  | (s', Ok a) => k a s'
  | (s', Raise e) => (s', Raise e)
  end.

Definition throw {S A} (e : exn) : M S A := λ s, (s, Raise e).
Definition lift {S A} (r : result A) : M S A := λ s, (s, r).
Definition modify {S} (f : S → S) : M S unit := λ s, (f s, Ok tt).
Definition gets {S A} (f : S → A) : M S A := λ s, (s, Ok (f s)).

(** [try: body finally: cleanup] *)
Definition finally {S A} (body : M S A) (cleanup : S → S) : M S A :=
  λ s, let '(s', r) := body s in (cleanup s', r).

(** [list(map(f, xs))] for an effectful [f], left to right. *)
Fixpoint mapM {S A B} (f : A → M S B) (xs : list A) : M S (list B) :=
  match xs with
  | [] => mret []
  | x :: xs' => y ← f x; ys ← mapM f xs'; mret (y :: ys)
  end.

(** A [for] loop over [xs] that may raise in its body. *)
Fixpoint for_each {St A} (body : St → A → result St) (st : St) (xs : list A)
  : result St :=
  match xs with
  | [] => Ok st
  | x :: xs' =>
      match body st x with
      | Ok st' => for_each body st' xs'
      | Raise e => Raise e
      end
  end.

(** ** Insertion-ordered dictionaries with [str] keys *)

Fixpoint dict_get {V} (k : string) (d : list (string * V)) : option V :=
  match d with
  | [] => None
  | (k', v) :: d' => if String.eqb k k' then Some v else dict_get k d'
  end.

(** [d[k] = v]: an existing key keeps its position. *)
Fixpoint dict_set {V} (k : string) (v : V) (d : list (string * V))
  : list (string * V) :=
  match d with
  | [] => [(k, v)]
  | (k', v') :: d' =>
      if String.eqb k k' then (k, v) :: d' else (k', v') :: dict_set k v d'
  end.

Definition dict_has {V} (k : string) (d : list (string * V)) : bool :=
  match dict_get k d with Some _ => true | None => false end.

(** A dictionary built from keyword items, read by key: a later item
    wins. *)
Definition kwargs {V} (items : list (string * V)) : gmap string V :=
  fold_left (λ m kv, <[kv.1 := kv.2]> m) items ∅.

(** ** Strings *)

(** [sep.join(parts)] *)
Definition join (sep : string) (parts : list string) : string :=
  String.concat sep parts.

(** [s.replace('?', new)] *)
Fixpoint replace_qmark (new s : string) : string :=
  match s with
  | EmptyString => EmptyString
  | String c s' =>
      if Ascii.eqb c "?" then new +:+ replace_qmark new s'
      else String c (replace_qmark new s')
  end.

(** [s.count(c)] for a one-character [c] *)
Fixpoint count_char (c : ascii) (s : string) : nat :=
  match s with
  | EmptyString => 0
  | String c' s' => (if Ascii.eqb c c' then 1 else 0) + count_char c s'
  end.

Definition lower_ascii (c : ascii) : ascii :=
  let n := nat_of_ascii c in
  if (65 <=? n)%nat && (n <=? 90)%nat then ascii_of_nat (n + 32) else c.

(** [s.lower()] on ASCII text *)
Fixpoint lower (s : string) : string :=
  match s with
  | EmptyString => EmptyString
  | String c s' => String (lower_ascii c) (lower s')
  end.

(** [s.startswith(p)] *)
Definition startswith (s p : string) : bool := String.prefix p s.

(** The text around one item of a joined list. *)
Definition before_item (sep : string) (A : list string) : string :=
  fold_right (λ a acc, a +:+ sep +:+ acc) "" A.

Definition after_item (sep : string) (B : list string) : string :=
  match B with [] => "" | _ => sep +:+ join sep B end.

End Py.

Import Py.

(* ===================================================================== *)
(** * www/orm.py                                                         *)
(* ===================================================================== *)

Module Orm.

(** [create_args_string]: the loop appends one marker per index, the
    result is joined with [', ']. *)
Fixpoint args_loop (num : nat) (L : list string) : list string :=
  match num with
  | O => L
  | S n => args_loop n (L ++ ["?"])
  end.

Definition create_args_string (num : nat) : string :=
  join ", " (args_loop num []).

(** [class Field] *)
Record Field : Type := mkField {
  field_name : option string;
  field_column_type : string;
  field_primary_key : bool;
  field_default : pyval
}.

Definition StringField (name : option string) (primary_key : bool)
    (default : pyval) (ddl : string) : Field :=
  mkField name ddl primary_key default.
Definition BooleanField (name : option string) (default : pyval) : Field :=
  mkField name "boolean" false default.
Definition IntegerField (name : option string) (primary_key : bool)
    (default : pyval) : Field :=
  mkField name "bigint" primary_key default.
Definition FloatField (name : option string) (primary_key : bool)
    (default : pyval) : Field :=
  mkField name "real" primary_key default.
Definition TextField (name : option string) (default : pyval) : Field :=
  mkField name "text" false default.

(** A value bound in a class body: a [Field] instance or anything else
    (a method, a constant). *)
Inductive attr : Type :=
| AField (f : Field)
| AOther (v : pyval).

(** The derived class attributes [__mappings__], [__table__],
    [__primary_key__], [__fields__], [__select__], [__insert__],
    [__update__], [__delete__], and what is left of the class body. *)
Record Schema : Type := mkSchema {
  mappings : list (string * Field);
  table : string;
  primary_key : string;
  fields : list string;
  select_sql : string;
  insert_sql : string;
  update_sql : string;
  delete_sql : string;
  namespace : list (string * attr)
}.

(** What [ModelMetaclass.__new__] returns: the base class untouched, or a
    class that carries a schema. *)
Inductive ModelClass : Type :=
| BaseModel (body : list (string * attr))
| Derived (s : Schema).

(** The three locals of the scanning loop. *)
Record scan : Type := mkScan {
  sc_mappings : list (string * Field);
  sc_fields : list string;
  sc_primaryKey : option string
}.

(** Body of [for k, v in attrs.items()]. *)
Definition scan_step (st : scan) (kv : string * attr) : result scan :=
  match kv.2 with
  | AField v =>
      let mappings' := dict_set kv.1 v (sc_mappings st) in
      if field_primary_key v then
        if opt_truthy (sc_primaryKey st) then Raise StandardError_unbound
        else Ok (mkScan mappings' (sc_fields st) (Some kv.1))
      else Ok (mkScan mappings' (sc_fields st ++ [kv.1]) (sc_primaryKey st))
  | AOther _ => Ok st
  end.

(** ['`%s`' % f] *)
Definition escaped (f : string) : string := "`" +:+ f +:+ "`".

(** ['`%s`=?' % (mappings.get(f).name or f)], for [f] among the fields:
    each of them is a key of [mappings]. *)
Definition set_item (mappings : list (string * Field)) (f : string) : string :=
  let column :=
    match dict_get f mappings with
    | Some fld => if opt_truthy (field_name fld)
                  then default f (field_name fld) else f
    | None => f
    end in
  "`" +:+ column +:+ "`=?".

Definition render_select (tableName primaryKey : string)
    (escaped_fields : list string) : string :=
  "select `" +:+ primaryKey +:+ "`, " +:+ join ", " escaped_fields
    +:+ " from `" +:+ tableName +:+ "`".

Definition render_insert (tableName primaryKey : string)
    (escaped_fields : list string) : string :=
  "insert into `" +:+ tableName +:+ "` (" +:+ join ", " escaped_fields
    +:+ ", `" +:+ primaryKey +:+ "`) values ("
    +:+ create_args_string (length escaped_fields + 1) +:+ ")".

Definition render_update (tableName primaryKey : string)
    (mappings : list (string * Field)) (fields : list string) : string :=
  "update `" +:+ tableName +:+ "` set "
    +:+ join ", " (map (set_item mappings) fields)
    +:+ " where `" +:+ primaryKey +:+ "`=?".

Definition render_delete (tableName primaryKey : string) : string :=
  "delete from `" +:+ tableName +:+ "` where `" +:+ primaryKey +:+ "`=?".

(** The attributes the metaclass writes into the class ([attrs['...'] =]
    at the end of [__new__]): a body entry under one of these names is
    overwritten. *)
Definition derived_names : list string :=
  ["__mappings__"; "__table__"; "__primary_key__"; "__fields__";
   "__select__"; "__insert__"; "__update__"; "__delete__"].

Definition is_derived_name (k : string) : bool :=
  existsb (String.eqb k) derived_names.

(** [ModelMetaclass.__new__(cls, name, bases, attrs)].  [tbl] is the
    [__table__] entry of the class body (a [str]) when there is one,
    [attrs] the rest of the body in declaration order.  [namespace] is
    what is left of the body with its own value: the fields are popped
    and the derived attributes overwritten. *)
Definition ModelMetaclass_new (name : string) (tbl : option string)
    (attrs : list (string * attr)) : result ModelClass :=
  if String.eqb name "Model" then Ok (BaseModel attrs)
  else
    let tableName := if opt_truthy tbl then default name tbl else name in
    match for_each scan_step (mkScan [] [] None) attrs with
    | Raise e => Raise e
    | Ok st =>
        if negb (opt_truthy (sc_primaryKey st)) then Raise StandardError_unbound
        else
          let primaryKey := default "" (sc_primaryKey st) in
          let rest :=
            filter (λ kv, negb (dict_has kv.1 (sc_mappings st))
                          && negb (is_derived_name kv.1)) attrs in
          let escaped_fields := map escaped (sc_fields st) in
          Ok (Derived {|
            mappings := sc_mappings st;
            table := tableName;
            primary_key := primaryKey;
            fields := sc_fields st;
            select_sql := render_select tableName primaryKey escaped_fields;
            insert_sql := render_insert tableName primaryKey escaped_fields;
            update_sql :=
              render_update tableName primaryKey (sc_mappings st) (sc_fields st);
            delete_sql := render_delete tableName primaryKey;
            namespace := rest
          |})
    end.

(** ** Reading a class body
    The declared fields of a class body, the names of those marked as
    primary key and of the others, each in declaration order. *)

Definition declared_fields (attrs : list (string * attr))
  : list (string * Field) :=
  omap (λ kv, match kv.2 with
              | AField f => Some (kv.1, f)
              | AOther _ => None
              end) attrs.

Definition key_names (attrs : list (string * attr)) : list string :=
  map fst (filter (λ kf, field_primary_key kf.2 = true) (declared_fields attrs)).

Definition non_key_names (attrs : list (string * attr)) : list string :=
  map fst (filter (λ kf, field_primary_key kf.2 = false) (declared_fields attrs)).

(** The text between the parentheses of a column list. *)
Definition column_list (columns : list string) : string :=
  join ", " (map escaped columns).

(** The same field declared without an explicit column name, and a class
    body in which the field bound to [k] is declared that way. *)
Definition without_name (f : Field) : Field :=
  mkField None (field_column_type f) (field_primary_key f) (field_default f).

Definition forget_name (k : string) (attrs : list (string * attr))
  : list (string * attr) :=
  map (λ kv, if String.eqb kv.1 k
             then (kv.1, match kv.2 with
                         | AField f => AField (without_name f)
                         | AOther v => AOther v
                         end)
             else kv) attrs.

(** On declared fields, forgetting the name is a map over the entries. *)
Definition forget_entry (k : string) (kf : string * Field) : string * Field :=
  if String.eqb kf.1 k then (kf.1, without_name kf.2) else kf.

(** ** The query executor *)

(** A row of a [DictCursor]: column name to cell. *)
Definition row : Type := list (string * pyval).

(** What lies outside the repository: the database behind the aiomysql
    pool, the generator functions used as defaults and Python's lookup
    of an attribute on a class.  [db_execute] answers
    [cur.execute(sql, args)] with the result set and the affected-row
    count, or with the exception the driver raises; [generate f n] is
    what the named generator [f] returns when it is the call number [n]
    made in this run; [class_attribute key] names the object that the
    ordinary lookup finds under [key] on the class of a record or on its
    bases [Model], [dict] and [object] (the bound methods [items],
    [keys], [update], [save], ...), and is [None] for a name found on
    none of them. *)
Record Env : Type := mkEnv {
  db_execute : string → list pyval → result (list row * Z);
  generate : string → nat → pyval;
  class_attribute : string → option string
}.

Inductive level : Type := DEBUG | INFO | WARNING.

#[global] Instance level_eq_dec : EqDecision level.
Proof. solve_decision. Defined.

(** One record handed to [logging]: level, template, operands. *)
Definition log_record : Type := (level * string * list pyval)%type.

(** The process state the coroutines act on. *)
Record World : Type := mkWorld {
  in_use : nat;                             (* connections out of the pool *)
  cursors : nat;                            (* cursors opened, not closed *)
  statements : list (string * list pyval);  (* what reached cur.execute *)
  records : list log_record;                (* logging output, in order *)
  clock : nat                               (* generator calls so far *)
}.

Definition acquire (w : World) : World :=
  mkWorld (S (in_use w)) (cursors w) (statements w) (records w) (clock w).
Definition release (w : World) : World :=
  mkWorld (pred (in_use w)) (cursors w) (statements w) (records w) (clock w).
Definition open_cursor (w : World) : World :=
  mkWorld (in_use w) (S (cursors w)) (statements w) (records w) (clock w).
Definition close_cursor (w : World) : World :=
  mkWorld (in_use w) (pred (cursors w)) (statements w) (records w) (clock w).
Definition sent (sql : string) (args : list pyval) (w : World) : World :=
  mkWorld (in_use w) (cursors w) (statements w ++ [(sql, args)]) (records w)
    (clock w).
Definition logged (r : log_record) (w : World) : World :=
  mkWorld (in_use w) (cursors w) (statements w) (records w ++ [r]) (clock w).
Definition ticked (w : World) : World :=
  mkWorld (in_use w) (cursors w) (statements w) (records w) (S (clock w)).

(** The warnings among the records logged so far. *)
Definition warnings_of (w : World) : list log_record :=
  filter (λ r, r.1.1 = WARNING) (records w).

Definition logging (lv : level) (template : string) (operands : list pyval)
  : M World unit :=
  modify (logged (lv, template, operands)).

(** [log(sql, args=())] *)
Definition log (sql : string) : M World unit :=
  logging INFO "SQL: %s" [PyStr sql].

(** [cur.execute(sql, args)] *)
Definition cur_execute (env : Env) (sql : string) (args : list pyval)
  : M World (list row * Z) :=
  modify (sent sql args);; lift (db_execute env sql args).

(** [cur.fetchmany(size)] on a fresh cursor: the slice [rows[0:size]],
    which is at most [size] rows from the front, and for a negative
    [size] all rows but the last [-size]. *)
Definition fetchmany (rs : list row) (size : Z) : list row :=
  if (size <? 0)%Z then take (length rs - Z.to_nat (- size)) rs
  else take (Z.to_nat size) rs.

(** [cur.fetchall()] *)
Definition fetchall (rs : list row) : list row := rs.

(** [args or ()] *)
Definition args_or_empty (args : option (list pyval)) : list pyval :=
  match args with
  | Some (a :: l) => a :: l
  | _ => []
  end.

(** [with (yield from __pool) as conn: body] *)
Definition with_connection {A} (body : M World A) : M World A :=
  modify acquire;; finally body release.

(** [select(sql, args, size=None)] *)
Definition select (env : Env) (sql : string) (args : option (list pyval))
    (size : option Z) : M World (list row) :=
  log sql;;
  with_connection (
    modify open_cursor;;
    res ← cur_execute env (replace_qmark "%s" sql) (args_or_empty args);
    let rs := if optint_truthy size then fetchmany res.1 (default 0%Z size)
              else fetchall res.1 in
    modify close_cursor;;
    logging INFO "rows returned: %s" [PyInt (Z.of_nat (length rs))];;
    mret rs).

(** [execute(sql, args)]: the [except BaseException: raise] clause
    re-raises what it catches. *)
Definition execute (env : Env) (sql : string) (args : list pyval)
  : M World Z :=
  log sql;;
  with_connection (
    modify open_cursor;;
    res ← cur_execute env (replace_qmark "%s" sql) args;
    let affected := res.2 in
    modify close_cursor;;
    mret affected).

(** ** [class Model(dict, metaclass=ModelMetaclass)] *)

(** A record instance is a [dict].  Setting an attribute goes through
    [__setattr__], that is, to the items of the dict; reading one goes
    through the ordinary lookup on the class first and reaches
    [__getattr__], that is, the items, only for a name that lookup does
    not find. *)
Abbreviation instance := (gmap string pyval).

(** [Model(...)] with keyword items, as in [cls] applied to a row. *)
Definition Model_init (kw : list (string * pyval)) : instance := kwargs kw.

(** [__getattr__(self, key)] *)
Definition getattr (self : instance) (key : string) : result pyval :=
  match self !! key with
  | Some v => Ok v
  | None => Raise (Exn AttributeError "'Model' object has no attribute '%s'"
                       [PyStr key])
  end.

(** [__setattr__(self, key, value)] *)
Definition setattr (self : instance) (key : string) (value : pyval)
  : instance :=
  <[key := value]> self.

(** [getattr(self, key, None)]: what the class has under [key], else
    what [__getattr__] answers, else [None]. *)
Definition getattr_or_none (env : Env) (self : instance) (key : string)
  : pyval :=
  match class_attribute env key with
  | Some found => PyObject found
  | None =>
      match getattr self key with
      | Ok v => v
      | Raise _ => PyNone
      end
  end.

(** The state of an instance method: the world and [self]. *)
Definition Self : Type := (World * instance)%type.

(** Run a coroutine of the executor inside an instance method. *)
Definition on_world {A} (m : M World A) : M Self A :=
  λ st, let '(w', r) := m st.1 in ((w', st.2), r).

(** [getValue(self, key)] *)
Definition getValue (env : Env) (key : string) : M Self pyval :=
  gets (λ st, getattr_or_none env st.2 key).

(** [getValueOrDefault(self, key)] *)
Definition getValueOrDefault (env : Env) (cls : Schema) (key : string)
  : M Self pyval :=
  value ← gets (λ st, getattr_or_none env st.2 key);
  if is_none value then
    match dict_get key (mappings cls) with
    | None => throw (Exn KeyError "%s" [PyStr key])
    | Some field =>
        if negb (is_none (field_default field)) then
          value' ← match field_default field with
                   | PyCallable f =>
                       n ← gets (λ st, clock st.1);
                       modify (λ st, (ticked st.1, st.2));;
                       mret (generate env f n)
                   | d => mret d
                   end;
          on_world (logging DEBUG "using default value for %s: %s"
                      [PyStr key; value']);;
          modify (λ st, (st.1, setattr st.2 key value'));;
          mret value'
        else mret value
    end
  else mret value.

(** The clauses [findAll] collects before the limit. *)
Definition findAll_clauses (cls : Schema) (where_ orderBy : option string)
  : list string :=
  [select_sql cls]
  ++ (if opt_truthy where_ then ["where"; default "" where_] else [])
  ++ (if opt_truthy orderBy then ["order by"; default "" orderBy] else []).

(** [findAll] up to the call of [select]: the list [sql] and the list
    [args] (the caller's list, extended in place, or a fresh one). *)
Definition findAll_query (cls : Schema) (where_ : option string)
    (args : option (list pyval)) (orderBy : option string) (limit : pyval)
  : result (list string * list pyval) :=
  let sql := findAll_clauses cls where_ orderBy in
  let args := default [] args in
  if negb (is_none limit) then
    let sql := sql ++ ["limit"] in
    if isinstance_int limit then Ok (sql ++ ["?"], args ++ [limit])
    else
      match limit with
      | PyTuple [a; b] => Ok (sql ++ ["?, ?"], args ++ [a; b])
      | _ => Raise (Exn ValueError "Invalid limit value: %s" [limit])
      end
  else Ok (sql, args).

(** [findAll(cls, where=None, args=None, orderBy=None, limit=None)]:
    returns the instances, and the final [args] list with them since the
    caller's list is the one extended. *)
Definition findAll (env : Env) (cls : Schema) (where_ : option string)
    (args : option (list pyval)) (orderBy : option string) (limit : pyval)
  : M World (list pyval * list instance) :=
  q ← lift (findAll_query cls where_ args orderBy limit);
  rs ← select env (join " " q.1) (Some q.2) None;
  mret (q.2, map Model_init rs).

(** [findNumber(cls, selectField, where=None, args=None)] *)
Definition findNumber (env : Env) (cls : Schema) (selectField : string)
    (where_ : option string) (args : option (list pyval))
  : M World pyval :=
  let sql := ["select " +:+ selectField +:+ " _num_ from `" +:+ table cls
                +:+ "`"]
             ++ (if opt_truthy where_ then ["where"; default "" where_]
                 else []) in
  rs ← select env (join " " sql) args (Some 1%Z);
  match rs with
  | [] => mret PyNone
  | r :: _ =>
      match dict_get "_num_" r with
      | Some v => mret v
      | None => throw (Exn KeyError "%s" [PyStr "_num_"])
      end
  end.

(** [find(cls, pk)]: [None] is the not-found answer. *)
Definition find (env : Env) (cls : Schema) (pk : pyval)
  : M World (option instance) :=
  rs ← select env (select_sql cls +:+ " where `" +:+ primary_key cls +:+ "`=?")
         (Some [pk]) (Some 1%Z);
  match rs with
  | [] => mret None
  | r :: _ => mret (Some (Model_init r))
  end.

(** The check every write ends with. *)
Definition warn_unless_one (template : string) (rows : Z) : M Self unit :=
  if negb (rows =? 1)%Z then on_world (logging WARNING template [PyInt rows])
  else mret tt.

(** [save(self)] *)
Definition save (env : Env) (cls : Schema) : M Self unit :=
  args ← mapM (getValueOrDefault env cls) (fields cls);
  pk ← getValueOrDefault env cls (primary_key cls);
  rows ← on_world (execute env (insert_sql cls) (args ++ [pk]));
  warn_unless_one "failed to insert record: affected rows: %s" rows.

(** [update(self)] *)
Definition update (env : Env) (cls : Schema) : M Self unit :=
  args ← mapM (getValue env) (fields cls);
  pk ← getValue env (primary_key cls);
  rows ← on_world (execute env (update_sql cls) (args ++ [pk]));
  warn_unless_one "failed to update by primary key: affected rows: %s" rows.

(** [remove(self)] *)
Definition remove (env : Env) (cls : Schema) : M Self unit :=
  pk ← getValue env (primary_key cls);
  rows ← on_world (execute env (delete_sql cls) [pk]);
  warn_unless_one "failed to remove by primary key: affected rows: %s" rows.

(** The last two statements of [save], [update] and [remove]: execute,
    then warn unless one row was affected. *)
Definition write_back (env : Env) (sql template : string)
    (args : list pyval) : M Self unit :=
  rows ← on_world (execute env sql args);
  warn_unless_one template rows.

(** The value [getValueOrDefault] hands back for [key], read off a
    record [self] at generator call number [t]. *)
Definition value_or_default (env : Env) (cls : Schema) (self : instance)
    (key : string) (t : nat) : pyval :=
  match getattr_or_none env self key with
  | PyNone =>
      match dict_get key (mappings cls) with
      | Some field =>
          match field_default field with
          | PyCallable f => generate env f t
          | d => d
          end
      | None => PyNone
      end
  | v => v
  end.

(** ** What the metaclass guarantees about a schema
    The non-key field names are distinct, and they and the key are keys
    of the mapping. *)
Definition schema_ok (cls : Schema) : Prop :=
  NoDup (fields cls)
  ∧ Forall (λ f, is_Some (dict_get f (mappings cls)))
      (fields cls ++ [primary_key cls]).

(** A field of a record is unset when the record has no item for it or
    the item is [None]. *)
Definition unset (self : instance) (key : string) : Prop :=
  self !! key = None ∨ self !! key = Some PyNone.

(** The value a declared default stands for when it is taken at
    generator call number [t]. *)
Definition default_value (env : Env) (d : pyval) (t : nat) : pyval :=
  match d with
  | PyCallable f => generate env f t
  | _ => d
  end.

(** A step that sends nothing, warns about nothing and borrows nothing. *)
Definition same_traffic (w w' : World) : Prop :=
  statements w' = statements w
  ∧ warnings_of w' = warnings_of w
  ∧ in_use w' = in_use w
  ∧ clock w ≤ clock w'.

(** ** Example classes, databases and worlds *)

(** A class body used in the examples: a key and two other columns. *)
Definition user_body : list (string * attr) :=
  [("id", AField (StringField None true (PyCallable "next_id") "varchar(50)"));
   ("email", AField (StringField None false PyNone "varchar(50)"));
   ("admin", AField (BooleanField None (PyBool false)));
   ("__doc__", AOther (PyStr "a user"))].

(** A class whose only field is its key. *)
Definition tag_body : list (string * attr) :=
  [("id", AField (StringField None true PyNone "varchar(50)"))].

Definition blog_body : list (string * attr) :=
  [("id", AField (StringField None true (PyCallable "next_id") "varchar(50)"));
   ("title", AField (StringField None false PyNone "varchar(50)"));
   ("summary", AField (StringField (Some "abstract") false PyNone
                         "varchar(200)"))].

(** The schema derived for the class of the examples. *)
Definition user_schema : Schema :=
  Eval vm_compute in
    match ModelMetaclass_new "User" (Some "users") user_body with
    | Ok (Derived s) => s
    | _ => mkSchema [] "" "" [] "" "" "" "" []
    end.

(** A database with three users, whatever the statement. *)
Definition three_rows : list row :=
  [[("id", PyInt 1)]; [("id", PyInt 2)]; [("id", PyInt 3)]].

(** The public methods a record class inherits: those of [dict], and
    those [Model] defines in the source. *)
Definition inherited_methods : list string :=
  ["clear"; "copy"; "fromkeys"; "get"; "items"; "keys"; "pop"; "popitem";
   "setdefault"; "update"; "values";
   "getValue"; "getValueOrDefault"; "findAll"; "findNumber"; "find";
   "save"; "remove"].

(** The lookup of the examples: it finds the inherited methods. *)
Definition python_attribute (key : string) : option string :=
  if existsb (String.eqb key) inherited_methods
  then Some ("bound method " +:+ key) else None.

Definition users_env : Env :=
  mkEnv (λ _ _, Ok (three_rows, 1%Z)) (λ _ n, PyInt (Z.of_nat n))
    python_attribute.

(** A database in which no row matches and no row is affected. *)
Definition empty_env : Env :=
  mkEnv (λ _ _, Ok ([], 0%Z)) (λ _ n, PyInt (Z.of_nat n)) python_attribute.

(** A class with a column named like a method of [dict]: an order and
    the list of its items, empty unless given. *)
Definition order_body : list (string * attr) :=
  [("id", AField (StringField None true (PyCallable "next_id") "varchar(50)"));
   ("items", AField (TextField None (PyStr "[]")))].

Definition order_schema : Schema :=
  Eval vm_compute in
    match ModelMetaclass_new "Order" None order_body with
    | Ok (Derived s) => s
    | _ => mkSchema [] "" "" [] "" "" "" "" []
    end.

(** An order on which nothing is set. *)
Definition new_order : gmap string pyval := ∅.

Definition idle : World := mkWorld 0 0 [] [] 0.

(** The clause that follows a text when it is given and not empty. *)
Definition clause (keyword : string) (text : option string) : string :=
  if opt_truthy text then " " +:+ keyword +:+ " " +:+ default "" text else "".

(** ** [create_pool] *)

(** The keyword arguments [create_pool] hands to [aiomysql.create_pool]
    (the event loop apart). *)
Record PoolArguments : Type := mkPoolArguments {
  host : pyval;
  port : pyval;
  user : pyval;
  password : pyval;
  db : pyval;
  charset : pyval;
  autocommit : pyval;
  maxsize : pyval;
  minsize : pyval
}.

(** [kw[key]] *)
Definition subscript (kw : gmap string pyval) (key : string) : result pyval :=
  match kw !! key with
  | Some v => Ok v
  | None => Raise (Exn KeyError "%s" [PyStr key])
  end.

(** [kw.get(key, fallback)] *)
Definition get_or (kw : gmap string pyval) (key : string) (fallback : pyval)
  : pyval :=
  default fallback (kw !! key).

(** [create_pool(loop, ...)] up to the call of the driver: the record
    logged and the arguments of the call, evaluated left to right. *)
Definition create_pool (kw : gmap string pyval) : M World PoolArguments :=
  logging INFO "create database connection pool..." [];;
  lift (
    let host := get_or kw "host" (PyStr "localhost") in
    let port := get_or kw "port" (PyInt 3306) in
    user ← subscript kw "user";
    password ← subscript kw "password";
    db ← subscript kw "db";
    mret (mkPoolArguments host port user password db
            (get_or kw "charset" (PyStr "utf8"))
            (get_or kw "autocommit" (PyBool true))
            (get_or kw "maxsize" (PyInt 10))
            (get_or kw "minsize" (PyInt 1)))).

(** A database whose driver raises on every statement. *)
Definition broken_env : Env :=
  mkEnv (λ _ _, Raise (Exn DriverError "server has gone away" []))
    (λ _ n, PyInt (Z.of_nat n)) python_attribute.

(** A record of the examples: only the address is set. *)
Definition new_user : gmap string pyval := {["email" := PyStr "a@b.c"]}.

(** A record of the examples in which everything is set. *)
Definition full_user : gmap string pyval :=
  {["id" := PyStr "u1"; "email" := PyStr "a@b.c"; "admin" := PyBool true]}.

(** A name without question mark. *)
Definition plain (s : string) : Prop := count_char "?" s = 0.

(** The names of a class body are free of question marks: the attribute
    names of the fields and their explicit column names. *)
Definition plain_names (attrs : list (string * attr)) : Prop :=
  Forall (λ kf, plain kf.1 ∧ ∀ c, field_name kf.2 = Some c → plain c)
    (declared_fields attrs).

(** A value of a class body is a [Field]. *)
Definition is_field (a : attr) : bool :=
  match a with AField _ => true | AOther _ => false end.

(** The options [create_pool] reads. *)
Definition pool_options : list string :=
  ["host"; "port"; "user"; "password"; "db"; "charset"; "autocommit";
   "maxsize"; "minsize"].

End Orm.

(* ===================================================================== *)
(** * www/lxfweb.py                                                      *)
(* ===================================================================== *)

Module Lxfweb.

(** [inspect.Parameter.kind] *)
Inductive kind : Type :=
| POSITIONAL_ONLY | POSITIONAL_OR_KEYWORD | VAR_POSITIONAL
| KEYWORD_ONLY | VAR_KEYWORD.

Definition kind_eqb (a b : kind) : bool :=
  match a, b with
  | POSITIONAL_ONLY, POSITIONAL_ONLY
  | POSITIONAL_OR_KEYWORD, POSITIONAL_OR_KEYWORD
  | VAR_POSITIONAL, VAR_POSITIONAL
  | KEYWORD_ONLY, KEYWORD_ONLY
  | VAR_KEYWORD, VAR_KEYWORD => true
  | _, _ => false
  end.

(** One entry of [inspect.signature(fn).parameters]; [has_default] is
    false when [param.default] is [inspect.Parameter.empty]. *)
Record Param : Type := mkParam {
  name : string;
  param_kind : kind;
  has_default : bool
}.

(** A keyword mapping. *)
Abbreviation kwmap := (gmap string pyval).

(** A handler function as the adapter sees it: its name, the text of its
    signature, its parameters in order, the attributes the decorators
    attach, and what calling it with keyword arguments yields. *)
Record Function : Type := mkFunction {
  __name__ : string;
  signature_text : string;
  parameters : list Param;
  __method__ : option string;
  __route__ : option string;
  call : kwmap → result pyval
}.

(** [@get(path)]: [functools.wraps] keeps name and signature. *)
Definition get (path : string) (func : Function) : Function :=
  mkFunction (__name__ func) (signature_text func) (parameters func)
    (Some "GET") (Some path) (call func).

(** [@post(path)] *)
Definition post (path : string) (func : Function) : Function :=
  mkFunction (__name__ func) (signature_text func) (parameters func)
    (Some "POST") (Some path) (call func).

Definition get_required_kw_args (fn : Function) : list string :=
  map name
    (filter (λ p, kind_eqb (param_kind p) KEYWORD_ONLY && negb (has_default p))
       (parameters fn)).

Definition get_named_kw_args (fn : Function) : list string :=
  map name (filter (λ p, kind_eqb (param_kind p) KEYWORD_ONLY) (parameters fn)).

(** Returns [True] or falls off the end ([None], false). *)
Definition has_named_kw_args (fn : Function) : bool :=
  existsb (λ p, kind_eqb (param_kind p) KEYWORD_ONLY) (parameters fn).

Definition has_var_kw_arg (fn : Function) : bool :=
  existsb (λ p, kind_eqb (param_kind p) VAR_KEYWORD) (parameters fn).

(** Body of the loop of [has_request_arg]; the state is [found]. *)
Definition request_step (fn : Function) (found : bool) (param : Param)
  : result bool :=
  if String.eqb (name param) "request" then Ok true
  else if found
          && (negb (kind_eqb (param_kind param) VAR_POSITIONAL)
              && negb (kind_eqb (param_kind param) KEYWORD_ONLY)
              && negb (kind_eqb (param_kind param) VAR_KEYWORD))
  then Raise (Exn ValueError
    "request parameter must be the last named parameter in function: %s%s"
    [PyStr (__name__ fn); PyStr (signature_text fn)])
  else Ok found.

Definition has_request_arg (fn : Function) : result bool :=
  for_each (request_step fn) false (parameters fn).

(** [class RequestHandler]: what [__init__] stores. *)
Record RequestHandler : Type := mkRequestHandler {
  _func : Function;
  _has_request_arg : bool;
  _has_var_kw_arg : bool;
  _has_named_kw_args : bool;
  _named_kw_args : list string;
  _required_kw_args : list string
}.

(** [RequestHandler.__init__(self, app, fn)] *)
Definition RequestHandler_init (fn : Function) : result RequestHandler :=
  found ← has_request_arg fn;
  mret (mkRequestHandler fn found (has_var_kw_arg fn) (has_named_kw_args fn)
          (get_named_kw_args fn) (get_required_kw_args fn)).

(** [add_route(app, fn)]: the route handed to [app.router.add_route]. *)
Definition add_route (fn : Function)
  : result (string * string * RequestHandler) :=
  match __method__ fn, __route__ fn with
  | Some method, Some path =>
      h ← RequestHandler_init fn;
      mret (method, path, h)
  | _, _ => Raise (Exn ValueError "@get or @post not defined in %s."
                     [PyObject (__name__ fn)])
  end.

(** The parts of an aiohttp request the adapter reads.  [json] is what
    decoding the body as JSON gives, [post_items] the items of the parsed
    form in the order sent, a multidict: a field sent twice is there
    twice. *)
Record Request : Type := mkRequest {
  method : string;
  content_type : option string;
  json : result pyval;
  post_items : list (string * pyval);
  query_string : string;
  match_info : list (string * string)
}.

(** What the adapter hands back to the server: the handler's value or an
    HTTP response object with its status and text. *)
Inductive answer : Type :=
| Value (v : pyval)
| HTTPResponse (status : Z) (text : option string).

(** [web.HTTPBadRequest(...)].  aiohttp declares the constructor of its
    HTTP exceptions as
    [(self, *, headers=None, reason=None, body=None, text=None,
      content_type=None)]: every parameter after [self] is keyword-only,
    so a positional argument is rejected by the call itself. *)
Definition HTTPBadRequest (positional : list pyval) (text : option string)
  : result answer :=
  match positional with
  | [] => Ok (HTTPResponse 400 text)
  | _ => Raise (Exn TypeError
           "__init__() takes 1 positional argument but %s were given"
           [PyInt (Z.of_nat (S (length positional)))])
  end.

(** [urllib.parse.parse_qs(qs, True)]: the keys in order of appearance,
    each with the list of its values. *)
Record Lib : Type := mkLib {
  parse_qs : string → list (string * list string)
}.

(** What a request leaves behind: the keyword mappings the handler was
    called with, and the warnings logged (informational records are
    left out). *)
Record Trace : Type := mkTrace {
  invoked : list kwmap;
  warnings : list (string * list pyval)
}.

Definition note_call (kw : kwmap) (t : Trace) : Trace :=
  mkTrace (invoked t ++ [kw]) (warnings t).
Definition note_warning (template : string) (ops : list pyval) (t : Trace)
  : Trace :=
  mkTrace (invoked t) (warnings t ++ [(template, ops)]).

(** A step of [__call__] either goes on with a value or returns. *)
Inductive flow (A : Type) : Type :=
| Next (a : A)
| Return (r : answer).
Arguments Next {A} a.
Arguments Return {A} r.

(** [return web.HTTPBadRequest(msg)] as the file writes it: the message
    is the one positional argument. *)
Definition return_bad_request {A} (msg : pyval) : result (flow A) :=
  r ← HTTPBadRequest [msg] None; mret (Return r).

(** [for k, v in parse_qs(qs, True).items(): kw[k] = v[0]] *)
Definition first_values (items : list (string * list string))
  : result kwmap :=
  for_each (λ kw kv,
      match kv.2 with
      | v0 :: _ => Ok (<[kv.1 := PyStr v0]> kw)
      | [] => Raise (Exn IndexError "list index out of range" [])
      end) ∅ items.

(** [dict] built from the unpacked form [params]: every key of the
    multidict is bound to [params[key]], which for a field sent more than
    once is the first of its values. *)
Definition dict_of_multidict (params : list (string * pyval)) : kwmap :=
  fold_left (λ kw kv,
      match dict_get kv.1 params with
      | Some v => <[kv.1 := v]> kw
      | None => kw
      end) params ∅.

(** The handler needs keyword arguments: the test of line 90. *)
Definition needs_kw (h : RequestHandler) : bool :=
  _has_var_kw_arg h || _has_named_kw_args h
  || negb (bool_decide (_required_kw_args h = [])).

(** Lines 89-110 of [__call__]: [kw] out of the body or the query
    string, [None] when neither applies. *)
Definition read_kw (lib : Lib) (h : RequestHandler) (request : Request)
  : result (flow (option kwmap)) :=
  if needs_kw h then
    after_post ←
      (if String.eqb (method request) "POST" then
         if negb (opt_truthy (content_type request)) then
           return_bad_request (PyStr "Missing Content-Type.")
         else
           let ct := lower (default "" (content_type request)) in
           if startswith ct "application/json" then
             params ← json request;
             match params with
             | PyDict items => mret (Next (Some (kwargs items)))
             | _ => return_bad_request (PyStr "JSON body must be object.")
             end
           else if startswith ct "application/x-www-form-urlencoded"
                   || startswith ct "multipart/form-data" then
             mret (Next (Some (dict_of_multidict (post_items request))))
           else
             return_bad_request
               (PyStr ("Unsupported Content-Type: "
                         +:+ default "" (content_type request)))
       else mret (Next None));
    match after_post with
    | Return r => mret (Return r)
    | Next kw =>
        if String.eqb (method request) "GET" then
          if str_truthy (query_string request) then
            kw' ← first_values (parse_qs lib (query_string request));
            mret (Next (Some kw'))
          else mret (Next kw)
        else mret (Next kw)
    end
  else mret (Next None).

(** [copy] of lines 116-120: the named keys that [kw] has. *)
Definition keep_named (named : list string) (kw : kwmap) : kwmap :=
  fold_left (λ copy nm,
      match kw !! nm with
      | Some v => <[nm := v]> copy
      | None => copy
      end) named ∅.

(** Lines 122-125: the path parameters go in last. *)
Fixpoint merge_match_info (items : list (string * string)) (kw : kwmap)
  : M Trace kwmap :=
  match items with
  | [] => mret kw
  | (k, v) :: rest =>
      (if bool_decide (is_Some (kw !! k)) then
         modify (note_warning
                   "Duplicate arg name in named arg and kw args: %s" [PyStr k])
       else mret tt);;
      merge_match_info rest (<[k := PyStr v]> kw)
  end.

(** Lines 111-125 of [__call__]. *)
Definition merge_kw (h : RequestHandler) (request : Request)
    (kw : option kwmap) : M Trace kwmap :=
  match kw with
  | None => mret (kwargs (map (λ kv, (kv.1, PyStr kv.2)) (match_info request)))
  | Some kw =>
      let kw := if negb (_has_var_kw_arg h)
                   && negb (bool_decide (_named_kw_args h = []))
                then keep_named (_named_kw_args h) kw else kw in
      merge_match_info (match_info request) kw
  end.

(** Lines 126-127. *)
Definition inject_request (h : RequestHandler) (kw : kwmap) : kwmap :=
  if _has_request_arg h then <["request" := PyObject "request"]> kw else kw.

(** Lines 129-132: the first required name that is missing. *)
Definition check_required (h : RequestHandler) (kw : kwmap)
  : result (flow unit) :=
  match filter (λ nm, negb (bool_decide (is_Some (kw !! nm))))
               (_required_kw_args h) with
  | [] => mret (Next tt)
  | nm :: _ => return_bad_request (PyStr ("Missing argument: " +:+ nm))
  end.

(** Lines 133-138: the call, with [APIError] turned into a dict. *)
Definition invoke (h : RequestHandler) (kw : kwmap) : M Trace answer :=
  modify (note_call kw);;
  match call (_func h) kw with
  | Ok r => mret (Value r)
  | Raise e =>
      match exn_cls e with
      | APIError =>
          mret (Value (PyDict [("error", nth 0 (exn_operands e) PyNone);
                               ("data", nth 1 (exn_operands e) PyNone);
                               ("message", nth 2 (exn_operands e) PyNone)]))
      | _ => throw e
      end
  end.

(** [RequestHandler.__call__(self, request)] *)
Definition RequestHandler_call (lib : Lib) (h : RequestHandler)
    (request : Request) : M Trace answer :=
  step ← lift (read_kw lib h request);
  match step with
  | Return r => mret r
  | Next kw =>
      kw ← merge_kw h request kw;
      let kw := inject_request h kw in
      step ← lift (check_required h kw);
      match step with
      | Return r => mret r
      | Next _ => invoke h kw
      end
  end.

(** ** Reading a signature
    The parameters that follow the one named [request]; the kinds the
    check of [has_request_arg] lets through, and the plain positional
    kinds it rejects. *)

Fixpoint after_request (ps : list Param) : list Param :=
  match ps with
  | [] => []
  | p :: ps' => if String.eqb (name p) "request" then ps' else after_request ps'
  end.

Definition keyword_like (p : Param) : bool :=
  match param_kind p with
  | VAR_POSITIONAL | KEYWORD_ONLY | VAR_KEYWORD => true
  | POSITIONAL_ONLY | POSITIONAL_OR_KEYWORD => false
  end.

Definition plain_positional (p : Param) : bool :=
  match param_kind p with
  | POSITIONAL_ONLY | POSITIONAL_OR_KEYWORD => true
  | VAR_POSITIONAL | KEYWORD_ONLY | VAR_KEYWORD => false
  end.

(** The error [has_request_arg] raises for [fn]. *)
Definition misplaced_request (fn : Function) : exn :=
  Exn ValueError
    "request parameter must be the last named parameter in function: %s%s"
    [PyStr (__name__ fn); PyStr (signature_text fn)].

(** A handler whose function is given other parameters after the
    registration. *)
Definition with_parameters (ps : list Param) (h : RequestHandler)
  : RequestHandler :=
  mkRequestHandler
    (mkFunction (__name__ (_func h)) (signature_text (_func h)) ps
       (__method__ (_func h)) (__route__ (_func h)) (call (_func h)))
    (_has_request_arg h) (_has_var_kw_arg h) (_has_named_kw_args h)
    (_named_kw_args h) (_required_kw_args h).

(** ** Reading a request
    The path parameters and the first query values as mappings. *)

Definition path_kw (request : Request) : kwmap :=
  kwargs (map (λ kv, (kv.1, PyStr kv.2)) (match_info request)).

Definition query_kw (lib : Lib) (request : Request) : kwmap :=
  kwargs (map (λ kv, (kv.1, PyStr (hd "" kv.2)))
            (parse_qs lib (query_string request))).

(** ** Example handlers and requests *)

(** Two handlers of the examples: [def index(request, **kw)] and
    [def blog(request, id)], both decorated with [@get]. *)
Definition index_fn : Function :=
  get "/" (mkFunction "index" "(request, **kw)"
             [mkParam "request" POSITIONAL_OR_KEYWORD false;
              mkParam "kw" VAR_KEYWORD false]
             None None (λ _, Ok (PyStr "index"))).

Definition blog_fn : Function :=
  get "/blog/{id}" (mkFunction "blog" "(request, id)"
             [mkParam "request" POSITIONAL_OR_KEYWORD false;
              mkParam "id" POSITIONAL_OR_KEYWORD false]
             None None (λ _, Ok (PyStr "blog"))).

(** A function [user] whose parameters [name] and [email] are
    keyword-only, its registration for GET, and a GET request for it. *)
Definition user_def : Function :=
  mkFunction "user" "(*, name, email='')"
    [mkParam "name" KEYWORD_ONLY false; mkParam "email" KEYWORD_ONLY true]
    None None (λ _, Ok (PyStr "user")).

Definition user_fn : Function := get "/user/{id}" user_def.

(** A [parse_qs] that knows the query string of the example. *)
Definition sample_lib : Lib :=
  mkLib (λ _, [("name", ["Bob"; "Rob"]); ("age", ["30"])]).

Definition user_request : Request :=
  mkRequest "GET" None (Ok PyNone) [] "name=Bob&name=Rob&age=30" [("id", "7")].

(** The handler built for [user] registered for POST, and a POST request
    with a plain-text body. *)
Definition user_handler : RequestHandler :=
  mkRequestHandler (post "/user" user_def) false false true ["name"; "email"]
    ["name"].

Definition plain_text_post : Request :=
  mkRequest "POST" (Some "text/plain") (Ok PyNone) [] "" [].

(** ** [add_routes] *)

(** Index of the last occurrence of a character, when there is one. *)
Fixpoint rfind_char (c : ascii) (s : string) : option nat :=
  match s with
  | EmptyString => None
  | String c' s' =>
      match rfind_char c s' with
      | Some i => Some (S i)
      | None => if Ascii.eqb c c' then Some 0 else None
      end
  end.

(** [s.rfind(c)] for a one-character [c]: [-1] when [c] does not occur. *)
Definition rfind (c : ascii) (s : string) : Z :=
  match rfind_char c s with
  | Some i => Z.of_nat i
  | None => (-1)%Z
  end.

(** [s[:n]] and [s[n+1:]] for [0 <= n]. *)
Definition slice_to (s : string) (n : Z) : string :=
  String.substring 0 (Z.to_nat n) s.

Definition slice_after (s : string) (n : Z) : string :=
  String.substring (Z.to_nat (n + 1)) (String.length s - Z.to_nat (n + 1)) s.

(** What [getattr(mod, attr)] gives for a name of [dir(mod)]: a function
    object, or anything else. *)
Inductive member : Type :=
| MFunction (fn : Function)
| MOther (v : pyval).

(** The import machinery: [load_top name] stands for
    [__import__(name, globals(), locals())], [load_from package name]
    for [getattr(__import__(package, globals(), locals(), [name]), name)];
    each answers with the names of [dir(mod)], in that order, and their
    values. *)
Record Loader : Type := mkLoader {
  load_top : string → result (list (string * member));
  load_from : string → string → result (list (string * member))
}.

(** A registered route: method, path, handler. *)
Abbreviation route := (string * string * RequestHandler)%type.

(** Body of [for attr in dir(mod)]; the state is the router's list of
    routes.  A callable that is not a function object has neither
    [__method__] nor [__route__]. *)
Definition register (entry : string * member) : M (list route) unit :=
  if startswith entry.1 "_" then mret tt
  else
    match entry.2 with
    | MFunction fn =>
        if opt_truthy (__method__ fn) && opt_truthy (__route__ fn) then
          r ← lift (add_route fn);
          modify (λ routes, routes ++ [r])
        else mret tt
    | MOther _ => mret tt
    end.

Fixpoint register_all (entries : list (string * member))
  : M (list route) unit :=
  match entries with
  | [] => mret tt
  | entry :: rest => register entry;; register_all rest
  end.

(** [add_routes(app, module_name)] *)
Definition add_routes (loader : Loader) (module_name : string)
  : M (list route) unit :=
  let n := rfind "." module_name in
  mod_ ← lift (if (n =? -1)%Z then load_top loader module_name
               else load_from loader (slice_to module_name n)
                      (slice_after module_name n));
  register_all mod_.

(** The functions of a module that [add_routes] hands to [add_route]:
    public names bound to functions with a method and a path. *)
Definition is_candidate (entry : string * member) : bool :=
  negb (startswith entry.1 "_")
  && match entry.2 with
     | MFunction fn => opt_truthy (__method__ fn) && opt_truthy (__route__ fn)
     | MOther _ => false
     end.

Definition candidates (entries : list (string * member)) : list Function :=
  omap (λ entry, match entry.2 with
                 | MFunction fn => if is_candidate entry then Some fn else None
                 | MOther _ => None
                 end) entries.

(** A module of the examples: a private helper, a constant, a function
    without decoration and two handlers. *)
Definition handlers_module : list (string * member) :=
  [("COOKIE_NAME", MOther (PyStr "session"));
   ("_helper", MFunction index_fn);
   ("index", MFunction index_fn);
   ("plain", MFunction user_def);
   ("user", MFunction user_fn)].

Definition sample_loader : Loader :=
  mkLoader (λ _, Ok handlers_module) (λ _ _, Ok handlers_module).

(** What is kept of the keyword mapping read from the request before
    the path parameters go in: everything when the function takes
    variadic keywords or has no keyword-only parameter, the
    keyword-only names otherwise, nothing when nothing was read. *)
Definition kept (h : RequestHandler) (kw : option kwmap) : kwmap :=
  match kw with
  | None => ∅
  | Some m =>
      if negb (_has_var_kw_arg h) && negb (bool_decide (_named_kw_args h = []))
      then filter (λ kv, kv.1 ∈ _named_kw_args h) m
      else m
  end.

(** The warning logged for a path parameter that is already a key. *)
Definition duplicate_warning (kv : string * string) : string * list pyval :=
  ("Duplicate arg name in named arg and kw args: %s", [PyStr kv.1]).

(** A request with a body that cannot be decoded, for the handler of
    [index], which takes the request and variadic keywords. *)
Definition put_request : Request :=
  mkRequest "PUT" (Some "application/json")
    (Raise (Exn ValueError "Expecting value" [])) [] "x=1" [("id", "7")].

Definition index_handler : RequestHandler :=
  mkRequestHandler index_fn true true false [] [].


(** A form in which the field [name] is sent twice. *)
Definition form_post : Request :=
  mkRequest "POST" (Some "application/x-www-form-urlencoded; charset=utf-8")
    (Ok PyNone)
    [("name", PyStr "A"); ("email", PyStr "a@b.c"); ("name", PyStr "B")] "" [].

End Lxfweb.

(* ===================================================================== *)
(** * Properties of the ORM layer                                        *)
(* ===================================================================== *)

(** Unfolds the operations of the effect monad. *)
Ltac unfold_monad :=
  unfold mbind, mret, M_bind, M_ret, result_bind, result_ret, modify, gets,
    lift, throw, finally in *.

Module OrmSpec.
Import Orm.

Ltac unfold_world :=
  unfold release, logged, close_cursor, sent, open_cursor, acquire, ticked
    in *.

(** ** Strings and dictionaries *)

Lemma append_nil (b : string) : "" +:+ b = b.
Proof. reflexivity. Qed.

Lemma append_cons x (a b : string) : String x a +:+ b = String x (a +:+ b).
Proof. reflexivity. Qed.

Lemma append_assoc (a b c : string) : (a +:+ b) +:+ c = a +:+ (b +:+ c).
Proof.
  induction a as [|x a IH]; [done |].
  by rewrite !append_cons, IH.
Qed.

Lemma count_char_app c (a b : string) :
  count_char c (a +:+ b) = count_char c a + count_char c b.
Proof.
  induction a as [|x a IH]; [done |].
  rewrite append_cons. simpl. rewrite IH. lia.
Qed.

Lemma args_loop_spec num L : args_loop num L = L ++ replicate num "?".
Proof.
  revert L. induction num as [|n IH]; intros L; simpl.
  - by rewrite app_nil_r.
  - rewrite IH, <- app_assoc. done.
Qed.

Lemma join_cons_cons sep (x y : string) l :
  join sep (x :: y :: l) = x +:+ sep +:+ join sep (y :: l).
Proof. reflexivity. Qed.

Lemma count_join_marks n :
  count_char "?" (join ", " (replicate (S n) "?")) = S n.
Proof.
  induction n as [|n IH]; [done |].
  change (replicate (S (S n)) "?") with ("?" :: "?" :: replicate n "?").
  rewrite join_cons_cons, !count_char_app.
  change ("?" :: replicate n "?") with (replicate (S n) "?").
  rewrite IH. done.
Qed.

Lemma dict_set_fresh {V} k (v : V) d :
  k ∉ d.*1 → dict_set k v d = d ++ [(k, v)].
Proof.
  induction d as [|[k' v'] d IH]; simpl; intros Hk; [done |].
  apply not_elem_of_cons in Hk as [Hne Hk].
  destruct (String.eqb_spec k k'); [done |]. by rewrite IH.
Qed.

Lemma fold_dict_set_fresh {V} (l m : list (string * V)) :
  NoDup (m ++ l).*1 →
  fold_left (λ acc kf, dict_set kf.1 kf.2 acc) l m = m ++ l.
Proof.
  revert m. induction l as [|[k v] l IH]; intros m Hnd; simpl.
  - by rewrite app_nil_r.
  - rewrite dict_set_fresh.
    + rewrite IH; rewrite <- app_assoc; done.
    + rewrite fmap_app in Hnd. apply NoDup_app in Hnd as (_ & Hdis & _).
      intros Hin. apply (Hdis k Hin). simpl. left.
  Qed.

(** ** The scanning loop of the metaclass *)

Lemma declared_fields_field k f l :
  declared_fields ((k, AField f) :: l) = (k, f) :: declared_fields l.
Proof. reflexivity. Qed.

Lemma declared_fields_other k v l :
  declared_fields ((k, AOther v) :: l) = declared_fields l.
Proof. reflexivity. Qed.

Lemma key_names_field k f l :
  key_names ((k, AField f) :: l)
  = if field_primary_key f then k :: key_names l else key_names l.
Proof.
  unfold key_names. rewrite declared_fields_field, filter_cons. simpl.
  destruct (field_primary_key f); by case_decide.
Qed.

Lemma non_key_names_field k f l :
  non_key_names ((k, AField f) :: l)
  = if field_primary_key f then non_key_names l else k :: non_key_names l.
Proof.
  unfold non_key_names. rewrite declared_fields_field, filter_cons. simpl.
  destruct (field_primary_key f); by case_decide.
Qed.

Lemma opt_truthy_named (o : option string) :
  (∀ k, o = Some k → k ≠ "") → opt_truthy o = bool_decide (is_Some o).
Proof.
  destruct o as [[|c k]|]; simpl; intros H; try done.
  by destruct (H "" eq_refl).
Qed.

Lemma for_each_cons {St A} (body : St → A → result St) st x xs :
  for_each body st (x :: xs)
  = match body st x with
    | Ok st' => for_each body st' xs
    | Raise e => Raise e
    end.
Proof. reflexivity. Qed.

Lemma scan_step_field st k f :
  scan_step st (k, AField f)
  = if field_primary_key f then
      if opt_truthy (sc_primaryKey st) then Raise StandardError_unbound
      else Ok (mkScan (dict_set k f (sc_mappings st)) (sc_fields st) (Some k))
    else Ok (mkScan (dict_set k f (sc_mappings st)) (sc_fields st ++ [k])
               (sc_primaryKey st)).
Proof. reflexivity. Qed.

Lemma scan_step_other st k v : scan_step st (k, AOther v) = Ok st.
Proof. reflexivity. Qed.

Lemma scan_loop_spec l st :
  Forall (λ kf, kf.1 ≠ "") (declared_fields l) →
  (∀ k, sc_primaryKey st = Some k → k ≠ "") →
  for_each scan_step st l =
    match option_list (sc_primaryKey st) ++ key_names l with
    | _ :: _ :: _ => Raise StandardError_unbound
    | pks =>
        Ok (mkScan
              (fold_left (λ acc kf, dict_set kf.1 kf.2 acc)
                 (declared_fields l) (sc_mappings st))
              (sc_fields st ++ non_key_names l)
              (head pks))
    end.
Proof.
  revert st. induction l as [|[k [f|v]] l IH]; intros st Hnames Hpk.
  - destruct st as [m fs [pk|]]; simpl; by rewrite ?app_nil_r.
  - rewrite declared_fields_field in Hnames.
    apply Forall_cons in Hnames as [Hk Hnames]. simpl in Hk.
    rewrite key_names_field, non_key_names_field, declared_fields_field.
    rewrite for_each_cons, scan_step_field.
    destruct (field_primary_key f) eqn:Hf.
    + rewrite (opt_truthy_named _ Hpk).
      destruct (sc_primaryKey st) as [k0|] eqn:Hst; simpl.
      * done.
      * rewrite IH; simpl; [| done | by intros ? [= <-]].
        destruct (key_names l) as [|? ?]; done.
    + rewrite IH; simpl; [| done | done].
      rewrite <- app_assoc. done.
  - rewrite declared_fields_other in Hnames.
    rewrite for_each_cons, scan_step_other.
    rewrite (IH st Hnames Hpk). done.
Qed.

Lemma declared_fields_keys_sublist attrs :
  sublist (declared_fields attrs).*1 attrs.*1.
Proof.
  induction attrs as [|[k [f|v]] l IH].
  - constructor.
  - rewrite declared_fields_field. by apply sublist_skip.
  - rewrite declared_fields_other. by apply sublist_cons.
Qed.

Lemma declared_fields_NoDup attrs :
  NoDup attrs.*1 → NoDup (declared_fields attrs).*1.
Proof.
  intros H. eapply sublist_NoDup; eauto using declared_fields_keys_sublist.
Qed.

(** What the metaclass computes for a class other than [Model] whose
    field names are not empty, in terms of the names marked as key. *)
Lemma ModelMetaclass_new_spec name tbl attrs :
  name ≠ "Model" →
  NoDup attrs.*1 →
  Forall (λ kf, kf.1 ≠ "") (declared_fields attrs) →
  ModelMetaclass_new name tbl attrs =
    match key_names attrs with
    | [pk] =>
        let tableName := if opt_truthy tbl then default name tbl else name in
        let fs := non_key_names attrs in
        Ok (Derived {|
          mappings := declared_fields attrs;
          table := tableName;
          primary_key := pk;
          fields := fs;
          select_sql := render_select tableName pk (map escaped fs);
          insert_sql := render_insert tableName pk (map escaped fs);
          update_sql := render_update tableName pk (declared_fields attrs) fs;
          delete_sql := render_delete tableName pk;
          namespace :=
            filter (λ kv, negb (dict_has kv.1 (declared_fields attrs))
                          && negb (is_derived_name kv.1)) attrs
        |})
    | _ => Raise StandardError_unbound
    end.
Proof.
  intros Hname Hnd Hnames. unfold ModelMetaclass_new.
  destruct (String.eqb_spec name "Model") as [->|_]; [done |].
  rewrite scan_loop_spec; [| done | done]. simpl.
  rewrite (fold_dict_set_fresh _ []); [| by apply declared_fields_NoDup].
  destruct (key_names attrs) as [|pk [|pk' pks]] eqn:Hkeys; simpl; [done | | done].
  assert (pk ≠ "") as Hpk.
  { assert (pk ∈ key_names attrs) as Hin by (rewrite Hkeys; left).
    unfold key_names in Hin. apply list_elem_of_fmap in Hin as ([k f] & -> & Hin).
    apply list_elem_of_filter in Hin as [_ Hin].
    rewrite Forall_forall in Hnames. by apply (Hnames (k, f)). }
  destruct pk as [|c pk]; [done |]. done.
Qed.

(** ** Primary keys (C4) *)

(** C4.  For a class other than [Model], declared through the metaclass
    (its body is a dictionary, its field names are identifiers, hence
    not empty): schema derivation raises when no declared field or more
    than one declared field is marked as primary key; with exactly one,
    the derived schema has that field as its key, the other declared
    fields in declaration order as its non-key fields, and every
    declared field in its mapping. *)
Theorem schema_needs_exactly_one_primary_key name tbl attrs :
  name ≠ "Model" →
  NoDup attrs.*1 →
  Forall (λ kf, kf.1 ≠ "") (declared_fields attrs) →
  (key_names attrs = [] →
     ModelMetaclass_new name tbl attrs = Raise StandardError_unbound)
  ∧ (2 ≤ length (key_names attrs) →
     ModelMetaclass_new name tbl attrs = Raise StandardError_unbound)
  ∧ (∀ pk, key_names attrs = [pk] →
     ∃ s, ModelMetaclass_new name tbl attrs = Ok (Derived s)
          ∧ primary_key s = pk
          ∧ fields s = non_key_names attrs
          ∧ mappings s = declared_fields attrs).
Proof.
  intros Hname Hnd Hnames.
  rewrite (ModelMetaclass_new_spec name tbl attrs Hname Hnd Hnames).
  repeat split.
  - by intros ->.
  - destruct (key_names attrs) as [|? [|? ?]]; simpl; [lia | lia | done].
  - intros pk ->. eexists. repeat split.
Qed.

Lemma schema_needs_exactly_one_primary_key_witness :
  ("User" ≠ "Model"
   ∧ NoDup user_body.*1
   ∧ Forall (λ kf, kf.1 ≠ "") (declared_fields user_body))
  ∧ ∃ s, ModelMetaclass_new "User" (Some "users") user_body = Ok (Derived s)
         ∧ primary_key s = "id"
         ∧ fields s = ["email"; "admin"]
         ∧ mappings s = declared_fields user_body.
Proof.
  assert ("User" ≠ "Model") as H1 by discriminate.
  assert (NoDup user_body.*1) as H2
    by (apply (bool_decide_unpack _); vm_compute; exact I).
  assert (Forall (λ kf, kf.1 ≠ "") (declared_fields user_body)) as H3
    by (repeat constructor; discriminate).
  split; [done |].
  apply (schema_needs_exactly_one_primary_key "User" (Some "users")
           user_body H1 H2 H3).
  reflexivity.
Defined.

(** ** The insert template (C1) *)

Lemma column_list_snoc cols pk :
  cols ≠ [] →
  join ", " (map escaped cols) +:+ ", `" +:+ pk +:+ "`"
  = column_list (cols ++ [pk]).
Proof.
  unfold column_list. induction cols as [|c cols IH]; [done | intros _].
  destruct cols as [|c' cols].
  - reflexivity.
  - change (map escaped ((c :: c' :: cols) ++ [pk]))
      with (escaped c :: escaped c' :: map escaped (cols ++ [pk])).
    change (map escaped (c :: c' :: cols))
      with (escaped c :: escaped c' :: map escaped cols).
    rewrite !join_cons_cons, !append_assoc.
    f_equal. f_equal. by apply IH.
Qed.

Lemma create_args_string_spec n :
  create_args_string n = join ", " (replicate n "?").
Proof. unfold create_args_string. by rewrite args_loop_spec. Qed.

(** The insert template of a schema with at least one non-key field. *)
Lemma render_insert_shape tbl pk cols :
  cols ≠ [] →
  render_insert tbl pk (map escaped cols)
  = "insert into `" +:+ tbl +:+ "` (" +:+ column_list (cols ++ [pk])
      +:+ ") values (" +:+ join ", " (replicate (length cols + 1) "?") +:+ ")".
Proof.
  intros Hne. unfold render_insert.
  rewrite create_args_string_spec, length_map.
  rewrite <- (column_list_snoc cols pk Hne), !append_assoc. done.
Qed.

(** C1.  For a class that has non-key fields [f1], ..., [fn] and the
    primary key [pk], the insert template is
    [insert into `table` (`f1`, ..., `fn`, `pk`) values (?, ..., ?)]:
    the non-key fields in declaration order, then the key, and as value
    list what [create_args_string] makes of [n + 1], which is [n + 1]
    markers separated by commas. *)
Theorem insert_sql_shape name tbl attrs pk :
  name ≠ "Model" →
  NoDup attrs.*1 →
  Forall (λ kf, kf.1 ≠ "") (declared_fields attrs) →
  key_names attrs = [pk] →
  non_key_names attrs ≠ [] →
  ∃ s, ModelMetaclass_new name tbl attrs = Ok (Derived s)
       ∧ fields s = non_key_names attrs
       ∧ primary_key s = pk
       ∧ insert_sql s
         = "insert into `" +:+ table s +:+ "` ("
             +:+ column_list (non_key_names attrs ++ [pk])
             +:+ ") values ("
             +:+ create_args_string (length (non_key_names attrs) + 1)
             +:+ ")"
       ∧ create_args_string (length (non_key_names attrs) + 1)
         = join ", " (replicate (length (non_key_names attrs) + 1) "?")
       ∧ count_char "?"
           (create_args_string (length (non_key_names attrs) + 1))
         = length (non_key_names attrs) + 1.
Proof.
  intros Hname Hnd Hnames Hkey Hne.
  rewrite (ModelMetaclass_new_spec name tbl attrs Hname Hnd Hnames), Hkey.
  eexists. split; [reflexivity |]. simpl.
  split; [done |]. split; [done |].
  rewrite create_args_string_spec. split; [| split; [done |]].
  - rewrite render_insert_shape by done. done.
  - rewrite Nat.add_1_r. apply count_join_marks.
Qed.

Lemma insert_sql_shape_witness :
  ∃ s, ModelMetaclass_new "User" (Some "users") user_body = Ok (Derived s)
       ∧ insert_sql s
         = "insert into `users` (`email`, `admin`, `id`) values (?, ?, ?)"
       ∧ count_char "?" "?, ?, ?" = 3.
Proof.
  destruct (insert_sql_shape "User" (Some "users") user_body "id")
    as (s & Hs & _ & _ & Hsql & _ & Hcount).
  - discriminate.
  - apply (bool_decide_unpack _); vm_compute; exact I.
  - repeat constructor; discriminate.
  - reflexivity.
  - discriminate.
  - exists s. split; [exact Hs |]. split; [| exact Hcount].
    rewrite Hsql. injection Hs as <-. reflexivity.
Defined.

(** ** Column names in the templates (C10) *)

Lemma dict_get_elem {V} k (v : V) (m : list (string * V)) :
  NoDup m.*1 → (k, v) ∈ m → dict_get k m = Some v.
Proof.
  induction m as [|[k' v'] m IH]; intros Hnd Hin; [by apply elem_of_nil in Hin |].
  simpl in Hnd. apply NoDup_cons in Hnd as [Hk' Hnd].
  apply elem_of_cons in Hin as [[= <- <-]|Hin]; simpl.
  - by rewrite String.eqb_refl.
  - destruct (String.eqb_spec k k') as [<-|_]; [| by apply IH].
    destruct Hk'. apply list_elem_of_fmap. by exists (k, v).
Qed.

Lemma declared_fields_elem k f attrs :
  (k, AField f) ∈ attrs → (k, f) ∈ declared_fields attrs.
Proof.
  intros Hin. apply list_elem_of_omap. by exists (k, AField f).
Qed.

Lemma non_key_names_elem k f attrs :
  (k, AField f) ∈ attrs → field_primary_key f = false →
  k ∈ non_key_names attrs.
Proof.
  intros Hin Hf. apply list_elem_of_fmap. exists (k, f). split; [done |].
  apply list_elem_of_filter. split; [done | by apply declared_fields_elem].
Qed.

Lemma set_item_named m k f c :
  dict_get k m = Some f → field_name f = Some c → c ≠ "" →
  set_item m k = "`" +:+ c +:+ "`=?".
Proof.
  intros Hm Hf Hc. unfold set_item. rewrite Hm, Hf. simpl.
  destruct c; [done | reflexivity].
Qed.

Lemma forget_name_keys k attrs : (forget_name k attrs).*1 = attrs.*1.
Proof.
  unfold forget_name. induction attrs as [|[k' a] l IH]; [done |].
  rewrite map_cons, !fmap_cons, IH. simpl. by destruct (String.eqb k' k).
Qed.

Lemma declared_fields_forget k attrs :
  declared_fields (forget_name k attrs)
  = map (forget_entry k) (declared_fields attrs).
Proof.
  unfold forget_name. induction attrs as [|[k' [f|v]] l IH]; [done | |].
  - rewrite map_cons, declared_fields_field. simpl map at 2. rewrite <- IH.
    unfold forget_entry. simpl. by destruct (String.eqb k' k).
  - rewrite map_cons, declared_fields_other. rewrite <- IH.
    simpl. by destruct (String.eqb k' k).
Qed.

Lemma names_filter_forget k b (m : list (string * Field)) :
  map fst (filter (λ kf, field_primary_key kf.2 = b) (map (forget_entry k) m))
  = map fst (filter (λ kf, field_primary_key kf.2 = b) m).
Proof.
  induction m as [|[k' f] m IH]; [done |].
  rewrite map_cons, !filter_cons.
  assert (field_primary_key (forget_entry k (k', f)).2 = field_primary_key f)
    as Hpk by (unfold forget_entry; simpl; by destruct (String.eqb k' k)).
  assert ((forget_entry k (k', f)).1 = k')
    as Hfst by (unfold forget_entry; simpl; by destruct (String.eqb k' k)).
  simpl in *. repeat case_decide; simpl; rewrite ?IH, ?Hfst; congruence.
Qed.

Lemma key_names_forget k attrs :
  key_names (forget_name k attrs) = key_names attrs.
Proof.
  unfold key_names. by rewrite declared_fields_forget, names_filter_forget.
Qed.

Lemma non_key_names_forget k attrs :
  non_key_names (forget_name k attrs) = non_key_names attrs.
Proof.
  unfold non_key_names. by rewrite declared_fields_forget, names_filter_forget.
Qed.

Lemma forget_entries_names k (m : list (string * Field)) :
  (map (forget_entry k) m).*1 = m.*1.
Proof.
  induction m as [|[k' f] m IH]; [done |].
  rewrite map_cons, !fmap_cons, IH. unfold forget_entry. simpl.
  by destruct (String.eqb k' k).
Qed.

Lemma dict_get_forget_other k k' (m : list (string * Field)) :
  k' ≠ k → dict_get k' (map (forget_entry k) m) = dict_get k' m.
Proof.
  intros Hne. induction m as [|[k0 f] m IH]; [done |].
  simpl. unfold forget_entry at 1. simpl.
  destruct (String.eqb_spec k0 k) as [->|Hk0]; simpl; rewrite IH; [| done].
  destruct (String.eqb_spec k' k); done.
Qed.

Lemma dict_get_forget_same k (m : list (string * Field)) :
  dict_get k (map (forget_entry k) m) = without_name <$> dict_get k m.
Proof.
  induction m as [|[k0 f] m IH]; [done |].
  simpl. unfold forget_entry at 1. simpl.
  destruct (String.eqb_spec k0 k) as [->|Hk0]; simpl.
  - by rewrite String.eqb_refl.
  - destruct (String.eqb_spec k k0) as [->|_]; [done | apply IH].
Qed.

Lemma set_item_forget_other k k' m :
  k' ≠ k → set_item (map (forget_entry k) m) k' = set_item m k'.
Proof. intros Hne. unfold set_item. by rewrite dict_get_forget_other. Qed.

Lemma set_item_forget_same k m :
  set_item (map (forget_entry k) m) k = "`" +:+ k +:+ "`=?".
Proof.
  unfold set_item. rewrite dict_get_forget_same.
  by destruct (dict_get k m).
Qed.

Lemma append_nil_r (a : string) : a +:+ "" = a.
Proof. induction a as [|x a IH]; [done |]. by rewrite append_cons, IH. Qed.

Lemma list_of_append (a b : string) :
  list_ascii_of_string (a +:+ b)
  = list_ascii_of_string a ++ list_ascii_of_string b.
Proof.
  induction a as [|x a IH]; [done |]. rewrite append_cons. simpl. by rewrite IH.
Qed.

Lemma append_cancel_r (a b s : string) : a +:+ s = b +:+ s → a = b.
Proof.
  intros H. apply (f_equal list_ascii_of_string) in H.
  rewrite !list_of_append in H. apply app_inv_tail in H.
  apply (f_equal string_of_list_ascii) in H.
  by rewrite !string_of_list_ascii_of_string in H.
Qed.

Lemma append_cancel_l (s a b : string) : s +:+ a = s +:+ b → a = b.
Proof.
  induction s as [|x s IH]; [done |]. rewrite !append_cons.
  intros [= H]. by apply IH.
Qed.

Lemma join_middle sep A x B :
  join sep (A ++ x :: B) = before_item sep A +:+ x +:+ after_item sep B.
Proof.
  induction A as [|a A IH].
  - destruct B as [|b B]; simpl app; simpl before_item; simpl after_item.
    + by rewrite append_nil_r.
    + by rewrite join_cons_cons.
  - assert (∃ y l, A ++ x :: B = y :: l) as (y & l & Hyl)
      by (destruct A; simpl; eauto).
    change ((a :: A) ++ x :: B) with (a :: (A ++ x :: B)).
    rewrite Hyl, join_cons_cons, <- Hyl, IH.
    simpl before_item. by rewrite !append_assoc.
Qed.

Lemma non_key_names_NoDup attrs :
  NoDup attrs.*1 → NoDup (non_key_names attrs).
Proof.
  intros Hnd. apply declared_fields_NoDup in Hnd.
  assert (non_key_names attrs `sublist_of` (declared_fields attrs).*1) as Hsub
    by apply (fmap_sublist fst), sublist_filter.
  eauto using sublist_NoDup.
Qed.

Lemma set_items_forget k m l :
  k ∉ l → map (set_item (map (forget_entry k) m)) l = map (set_item m) l.
Proof.
  induction l as [|x l IH]; intros Hk; [done |].
  apply not_elem_of_cons in Hk as [Hne Hk].
  rewrite !map_cons, IH by done. by rewrite set_item_forget_other.
Qed.

(** Forgetting the explicit name of a non-key field changes the update
    template, provided the name was not the attribute name. *)
Lemma render_update_forget tbl pk m k f c fs :
  NoDup fs → k ∈ fs →
  dict_get k m = Some f → field_name f = Some c → c ≠ "" → c ≠ k →
  render_update tbl pk (map (forget_entry k) m) fs ≠ render_update tbl pk m fs.
Proof.
  intros Hnd Hin Hm Hf Hc Hck Heq.
  apply list_elem_of_split in Hin as (l1 & l2 & ->).
  apply NoDup_app in Hnd as (_ & Hl1 & Hl2).
  apply NoDup_cons in Hl2 as [Hl2 _].
  assert (k ∉ l1) as Hk1 by (intros Hin; apply (Hl1 k Hin); left).
  unfold render_update in Heq.
  apply append_cancel_l, append_cancel_l, append_cancel_l in Heq.
  rewrite <- !append_assoc in Heq. do 3 apply append_cancel_r in Heq.
  rewrite !map_app, !map_cons, !set_items_forget in Heq by done.
  rewrite set_item_forget_same, (set_item_named m k f c) in Heq by done.
  rewrite !join_middle in Heq.
  apply append_cancel_l in Heq.
  rewrite <- !append_assoc in Heq. apply append_cancel_r in Heq.
  rewrite !append_cons in Heq. injection Heq as Heq.
  apply append_cancel_r in Heq. by subst.
Qed.

(** C10.  For a class with one primary key and a non-key field bound to
    attribute [k] and declared with an explicit, non-empty column name
    [c] other than [k]: the item of the update template's set clause at
    the field's position is [`c`=?], while the select and insert
    templates carry [`k`] there; declaring the field without the
    explicit name leaves the select and insert templates as they are and
    changes the update template. *)
Theorem update_sql_alone_uses_column_name name tbl attrs pk k f c :
  name ≠ "Model" →
  NoDup attrs.*1 →
  Forall (λ kf, kf.1 ≠ "") (declared_fields attrs) →
  key_names attrs = [pk] →
  (k, AField f) ∈ attrs →
  field_primary_key f = false →
  field_name f = Some c → c ≠ "" → c ≠ k →
  ∃ s s',
    ModelMetaclass_new name tbl attrs = Ok (Derived s)
    ∧ ModelMetaclass_new name tbl (forget_name k attrs) = Ok (Derived s')
    ∧ (∃ i, fields s !! i = Some k
            ∧ map (set_item (mappings s)) (fields s) !! i
              = Some ("`" +:+ c +:+ "`=?")
            ∧ map escaped (fields s) !! i = Some ("`" +:+ k +:+ "`"))
    ∧ update_sql s
      = "update `" +:+ table s +:+ "` set "
          +:+ join ", " (map (set_item (mappings s)) (fields s))
          +:+ " where `" +:+ pk +:+ "`=?"
    ∧ select_sql s
      = "select `" +:+ pk +:+ "`, " +:+ join ", " (map escaped (fields s))
          +:+ " from `" +:+ table s +:+ "`"
    ∧ insert_sql s
      = "insert into `" +:+ table s +:+ "` ("
          +:+ join ", " (map escaped (fields s)) +:+ ", `" +:+ pk
          +:+ "`) values ("
          +:+ create_args_string (length (map escaped (fields s)) + 1) +:+ ")"
    ∧ select_sql s' = select_sql s
    ∧ insert_sql s' = insert_sql s
    ∧ update_sql s' ≠ update_sql s.
Proof.
  intros Hname Hnd Hnames Hkey Hin Hpk Hf Hc Hck.
  assert (dict_get k (declared_fields attrs) = Some f) as Hget.
  { apply dict_get_elem; [by apply declared_fields_NoDup |].
    by apply declared_fields_elem. }
  assert (k ∈ non_key_names attrs) as Hk by (by eapply non_key_names_elem).
  rewrite (ModelMetaclass_new_spec name tbl attrs Hname Hnd Hnames), Hkey.
  rewrite (ModelMetaclass_new_spec name tbl (forget_name k attrs) Hname).
  2: by rewrite forget_name_keys.
  2: { rewrite declared_fields_forget. rewrite Forall_forall in Hnames.
       apply Forall_forall. intros kf' (kf & -> & Hkf)%list_elem_of_fmap.
       unfold forget_entry. destruct (String.eqb kf.1 k); simpl;
         by apply Hnames. }
  rewrite key_names_forget, Hkey, non_key_names_forget, declared_fields_forget.
  do 2 eexists. split; [reflexivity |]. split; [reflexivity |]. simpl.
  split; [| repeat split].
  - apply list_elem_of_lookup in Hk as [i Hi]. exists i.
    split; [done |]. rewrite !list_lookup_fmap, Hi. simpl.
    by rewrite (set_item_named _ k f c).
  - eapply render_update_forget; eauto using non_key_names_NoDup.
Qed.

Lemma update_sql_alone_uses_column_name_witness :
  ∃ s, ModelMetaclass_new "Blog" None blog_body = Ok (Derived s)
       ∧ update_sql s
         = "update `Blog` set `title`=?, `abstract`=? where `id`=?"
       ∧ select_sql s = "select `id`, `title`, `summary` from `Blog`"
       ∧ insert_sql s
         = "insert into `Blog` (`title`, `summary`, `id`) values (?, ?, ?)".
Proof.
  destruct (update_sql_alone_uses_column_name "Blog" None blog_body "id"
              "summary"
              (StringField (Some "abstract") false PyNone "varchar(200)")
              "abstract")
    as (s & s' & Hs & _).
  - discriminate.
  - apply (bool_decide_unpack _); vm_compute; exact I.
  - repeat constructor; discriminate.
  - reflexivity.
  - unfold blog_body. do 2 right. left.
  - reflexivity.
  - reflexivity.
  - discriminate.
  - discriminate.
  - exists s. split; [exact Hs |]. injection Hs as <-. repeat split.
Defined.

(** ** The query executor (C9) *)

Lemma replace_qmark_no_marker new s :
  count_char "?" new = 0 → count_char "?" (replace_qmark new s) = 0.
Proof.
  intros Hnew. induction s as [|c s IH]; [done |].
  change (replace_qmark new (String c s))
    with (if Ascii.eqb c "?" then new +:+ replace_qmark new s
          else String c (replace_qmark new s)).
  destruct (Ascii.eqb_spec c "?") as [->|Hc].
  - by rewrite count_char_app, Hnew, IH.
  - change (count_char "?" (String c (replace_qmark new s)))
      with ((if Ascii.eqb "?" c then 1 else 0)
            + count_char "?" (replace_qmark new s)).
    rewrite IH. destruct (Ascii.eqb_spec "?" c); [by subst | done].
Qed.

(** What [select] does when the driver answers with a result set. *)
Lemma select_answered env sql args size w rows n :
  db_execute env (replace_qmark "%s" sql) (args_or_empty args) = Ok (rows, n) →
  select env sql args size w
  = let rs := if optint_truthy size then fetchmany rows (default 0%Z size)
              else fetchall rows in
    (mkWorld (in_use w) (cursors w)
       (statements w ++ [(replace_qmark "%s" sql, args_or_empty args)])
       (records w ++ [(INFO, "SQL: %s", [PyStr sql])]
          ++ [(INFO, "rows returned: %s", [PyInt (Z.of_nat (length rs))])])
       (clock w),
     Ok rs).
Proof.
  intros Hdb. unfold select, with_connection, finally, cur_execute, log, logging.
  unfold mbind, mret, M_bind, M_ret, modify, lift. simpl.
  rewrite Hdb. unfold_world. simpl. rewrite <- app_assoc. done.
Qed.

(** What [select] does when the driver raises. *)
Lemma select_failed env sql args size w e :
  db_execute env (replace_qmark "%s" sql) (args_or_empty args) = Raise e →
  select env sql args size w
  = (mkWorld (in_use w) (S (cursors w))
       (statements w ++ [(replace_qmark "%s" sql, args_or_empty args)])
       (records w ++ [(INFO, "SQL: %s", [PyStr sql])])
       (clock w),
     Raise e).
Proof.
  intros Hdb. unfold select, with_connection, finally, cur_execute, log, logging.
  unfold mbind, mret, M_bind, M_ret, modify, lift. simpl.
  rewrite Hdb. unfold_world. done.
Qed.

(** Whatever the driver answers, [select] sends one statement and gives
    the connection back. *)
Lemma select_effects env sql args size w :
  statements (select env sql args size w).1
  = statements w ++ [(replace_qmark "%s" sql, args_or_empty args)]
  ∧ in_use (select env sql args size w).1 = in_use w.
Proof.
  destruct (db_execute env (replace_qmark "%s" sql) (args_or_empty args))
    as [[rows n]|e] eqn:Hdb.
  - by rewrite (select_answered env sql args size w rows n Hdb).
  - by rewrite (select_failed env sql args size w e Hdb).
Qed.

Example user_schema_derived :
  ModelMetaclass_new "User" (Some "users") user_body = Ok (Derived user_schema).
Proof. reflexivity. Qed.

(** C9, as amended.  [select(sql, args, size)] hands the driver the text
    with every [?] replaced by [%s] (no [?] is left) and [args or ()].
    When the driver answers, the rows returned are the first [size] rows
    of the result set, or all of it when it has fewer, for a positive
    [size], and the whole result set when [size] is absent; when the
    driver raises, the exception propagates.  Either way the connection
    is back in the pool. *)
Theorem select_fetches_up_to_size env sql args size w :
  (∀ z, size = Some z → (0 < z)%Z) →
  let text := replace_qmark "%s" sql in
  count_char "?" text = 0
  ∧ statements (select env sql args size w).1
    = statements w ++ [(text, args_or_empty args)]
  ∧ in_use (select env sql args size w).1 = in_use w
  ∧ (∀ rows n,
       db_execute env text (args_or_empty args) = Ok (rows, n) →
       (select env sql args size w).2
       = Ok (match size with
             | Some z => take (Z.to_nat z) rows
             | None => rows
             end))
  ∧ (∀ e,
       db_execute env text (args_or_empty args) = Raise e →
       (select env sql args size w).2 = Raise e).
Proof.
  intros Hsize text. split; [by apply replace_qmark_no_marker |].
  destruct (db_execute env text (args_or_empty args)) as [[rows n]|e] eqn:Hdb.
  - rewrite (select_answered env sql args size w rows n Hdb). simpl.
    repeat split; [| done].
    intros rows' n' [= <- <-]. f_equal.
    destruct size as [z|]; simpl; [| done].
    specialize (Hsize z eq_refl).
    destruct (Z.eqb_spec z 0); [lia |]. unfold fetchmany.
    destruct (Z.ltb_spec z 0); [lia | done].
  - rewrite (select_failed env sql args size w e Hdb). simpl.
    repeat split; [done |]. by intros e' [= <-].
Qed.

Lemma select_fetches_up_to_size_witness :
  (∀ z, Some 2%Z = Some z → (0 < z)%Z)
  ∧ (select users_env "select `id` from `users` where `id`>?"
       (Some [PyInt 0]) (Some 2%Z) idle).2
    = Ok [[("id", PyInt 1)]; [("id", PyInt 2)]].
Proof.
  assert (∀ z, Some 2%Z = Some z → (0 < z)%Z) as H
    by (intros z [= <-]; lia).
  split; [exact H |].
  destruct (select_fetches_up_to_size users_env
              "select `id` from `users` where `id`>?" (Some [PyInt 0])
              (Some 2%Z) idle H) as (_ & _ & _ & Hok & _).
  apply (Hok three_rows 1%Z). reflexivity.
Defined.

(** C9 as stated fails: with [size = 1] and no matching row, as in
    [find] on an unknown key, the driver answers and no row is fetched,
    not one. *)
Lemma select_fetches_fewer_than_size :
  ∃ rs, (select empty_env "select `id` from `users` where `id`=?"
           (Some [PyInt 7]) (Some 1%Z) idle).2 = Ok rs
        ∧ length rs ≠ Z.to_nat 1.
Proof. exists []. split; [reflexivity | discriminate]. Qed.

(** ** The limit of [findAll] (C2) *)

Lemma join_snoc sep l (x : string) :
  l ≠ [] → join sep (l ++ [x]) = join sep l +:+ sep +:+ x.
Proof.
  induction l as [|a l IH]; [done | intros _].
  destruct l as [|b l]; [reflexivity |].
  change ((a :: b :: l) ++ [x]) with (a :: b :: (l ++ [x])).
  rewrite !join_cons_cons, !append_assoc. f_equal. f_equal. by apply IH.
Qed.

Lemma args_or_empty_some l : args_or_empty (Some l) = l.
Proof. by destruct l. Qed.

Lemma findAll_clauses_nonempty cls where_ orderBy :
  findAll_clauses cls where_ orderBy ≠ [].
Proof. unfold findAll_clauses. simpl. discriminate. Qed.

(** The text [findAll] builds when two more words follow the clauses. *)
Lemma join_limit base (marks : string) :
  base ≠ [] →
  join " " ((base ++ ["limit"]) ++ [marks])
  = join " " base +:+ " limit " +:+ marks.
Proof.
  intros Hne.
  rewrite (join_snoc " " (base ++ ["limit"])) by (by destruct base).
  rewrite (join_snoc " " base) by done.
  by rewrite !append_assoc.
Qed.

(** The statement log after [findAll], once the query is built. *)
Lemma findAll_statements env cls where_ args orderBy limit sql args' w :
  findAll_query cls where_ args orderBy limit = Ok (sql, args') →
  statements (findAll env cls where_ args orderBy limit w).1
  = statements w ++ [(replace_qmark "%s" (join " " sql), args')].
Proof.
  intros Hq. unfold findAll. unfold_monad. rewrite Hq. simpl.
  pose proof (select_effects env (join " " sql) (Some args') None w)
    as [Hst _].
  rewrite args_or_empty_some in Hst.
  destruct (select env (join " " sql) (Some args') None w) as [w' [rs|e]];
    simpl in *; done.
Qed.

(** C2.  [findAll] with an integer [limit] sends the text of the call
    without limit followed by [limit ?] (one more marker) and the
    arguments followed by the integer; with a pair [(a, b)] it sends that
    text followed by [limit ?, ?] (two more markers) and the arguments
    followed by [a] and [b]; with any other limit that is not [None] it
    raises [ValueError] and leaves the world as it was: nothing is sent. *)
Theorem findAll_limit env cls where_ args orderBy limit w :
  let sql0 := join " " (findAll_clauses cls where_ orderBy) in
  let args0 := default [] args in
  (limit = PyNone →
     statements (findAll env cls where_ args orderBy limit w).1
     = statements w ++ [(replace_qmark "%s" sql0, args0)])
  ∧ (isinstance_int limit = true →
     statements (findAll env cls where_ args orderBy limit w).1
     = statements w
       ++ [(replace_qmark "%s" (sql0 +:+ " limit " +:+ "?"), args0 ++ [limit])]
     ∧ count_char "?" (sql0 +:+ " limit " +:+ "?") = count_char "?" sql0 + 1
     ∧ ∀ r, (findAll env cls where_ args orderBy limit w).2 = Ok r →
            r.1 = args0 ++ [limit])
  ∧ (∀ a b, limit = PyTuple [a; b] →
     statements (findAll env cls where_ args orderBy limit w).1
     = statements w
       ++ [(replace_qmark "%s" (sql0 +:+ " limit " +:+ "?, ?"),
            args0 ++ [a; b])]
     ∧ count_char "?" (sql0 +:+ " limit " +:+ "?, ?") = count_char "?" sql0 + 2
     ∧ ∀ r, (findAll env cls where_ args orderBy limit w).2 = Ok r →
            r.1 = args0 ++ [a; b])
  ∧ (limit ≠ PyNone → isinstance_int limit = false →
     (∀ a b, limit ≠ PyTuple [a; b]) →
     findAll env cls where_ args orderBy limit w
     = (w, Raise (Exn ValueError "Invalid limit value: %s" [limit]))).
Proof.
  intros sql0 args0.
  pose proof (findAll_clauses_nonempty cls where_ orderBy) as Hne.
  split; [| split; [| split]].
  - intros ->. by apply findAll_statements.
  - intros Hint.
    assert (findAll_query cls where_ args orderBy limit
            = Ok ((findAll_clauses cls where_ orderBy ++ ["limit"]) ++ ["?"],
                  args0 ++ [limit])) as Hq.
    { unfold findAll_query. rewrite Hint. by destruct limit. }
    split; [| split].
    + rewrite (findAll_statements _ _ _ _ _ _ _ _ _ Hq). by rewrite join_limit.
    + rewrite !count_char_app. simpl. lia.
    + intros r. unfold findAll. unfold_monad. rewrite Hq. simpl.
      destruct (select env _ _ None w) as [w' [rs|e]]; [| done].
      by intros [= <-].
  - intros a b ->.
    assert (findAll_query cls where_ args orderBy (PyTuple [a; b])
            = Ok ((findAll_clauses cls where_ orderBy ++ ["limit"]) ++ ["?, ?"],
                  args0 ++ [a; b])) as Hq by reflexivity.
    split; [| split].
    + rewrite (findAll_statements _ _ _ _ _ _ _ _ _ Hq). by rewrite join_limit.
    + rewrite !count_char_app. simpl. lia.
    + intros r. unfold findAll. unfold_monad. rewrite Hq. simpl.
      destruct (select env _ _ None w) as [w' [rs|e]]; [| done].
      by intros [= <-].
  - intros Hnone Hint Hpair. unfold findAll, findAll_query. unfold_monad.
    destruct limit as [| | | |items| | | |]; try done.
    destruct items as [|a [|b [|c items]]]; try done.
    by destruct (Hpair a b).
Qed.

Lemma findAll_limit_witness :
  statements (findAll users_env user_schema (Some "admin=?")
                (Some [PyBool true]) (Some "id desc") (PyInt 5) idle).1
  = [("select `id`, `email`, `admin` from `users` where admin=%s order by id desc limit %s",
      [PyBool true; PyInt 5])]
  ∧ statements (findAll users_env user_schema None None None
                  (PyTuple [PyInt 10; PyInt 20]) idle).1
    = [("select `id`, `email`, `admin` from `users` limit %s, %s",
        [PyInt 10; PyInt 20])]
  ∧ findAll users_env user_schema None None None (PyStr "x") idle
    = (idle, Raise (Exn ValueError "Invalid limit value: %s" [PyStr "x"])).
Proof.
  split; [| split].
  - destruct (findAll_limit users_env user_schema (Some "admin=?")
                (Some [PyBool true]) (Some "id desc") (PyInt 5) idle)
      as (_ & Hint & _).
    destruct (Hint eq_refl) as [Hst _]. exact Hst.
  - destruct (findAll_limit users_env user_schema None None None
                (PyTuple [PyInt 10; PyInt 20]) idle)
      as (_ & _ & Hpair & _).
    destruct (Hpair (PyInt 10) (PyInt 20) eq_refl) as [Hst _]. exact Hst.
  - destruct (findAll_limit users_env user_schema None None None
                (PyStr "x") idle)
      as (_ & _ & _ & Herr).
    apply Herr; [discriminate | reflexivity | discriminate].
Defined.

(** ** Writes: [execute] and the affected-row check (C5) *)

Lemma execute_answered env sql args w rows n :
  db_execute env (replace_qmark "%s" sql) args = Ok (rows, n) →
  execute env sql args w
  = (mkWorld (in_use w) (cursors w)
       (statements w ++ [(replace_qmark "%s" sql, args)])
       (records w ++ [(INFO, "SQL: %s", [PyStr sql])])
       (clock w),
     Ok n).
Proof.
  intros Hdb. unfold execute, with_connection, cur_execute, log, logging.
  unfold_monad. simpl. rewrite Hdb. unfold_world. done.
Qed.

Lemma execute_failed env sql args w e :
  db_execute env (replace_qmark "%s" sql) args = Raise e →
  execute env sql args w
  = (mkWorld (in_use w) (S (cursors w))
       (statements w ++ [(replace_qmark "%s" sql, args)])
       (records w ++ [(INFO, "SQL: %s", [PyStr sql])])
       (clock w),
     Raise e).
Proof.
  intros Hdb. unfold execute, with_connection, cur_execute, log, logging.
  unfold_monad. simpl. rewrite Hdb. unfold_world. done.
Qed.

Lemma warnings_of_info w ins cs st ck template ops :
  warnings_of (mkWorld ins cs st (records w ++ [(INFO, template, ops)]) ck)
  = warnings_of w.
Proof.
  unfold warnings_of. simpl. rewrite filter_app, filter_cons. simpl.
  by rewrite filter_nil, app_nil_r.
Qed.

(** The step sends one statement; if the driver reports [n] rows for
    it, the step returns normally and logs one warning exactly when
    [n] is not 1. *)
Lemma write_back_spec env sql template args st :
  statements (write_back env sql template args st).1.1
  = statements st.1 ++ [(replace_qmark "%s" sql, args)]
  ∧ ∀ rows n,
      db_execute env (replace_qmark "%s" sql) args = Ok (rows, n) →
      (write_back env sql template args st).2 = Ok tt
      ∧ warnings_of (write_back env sql template args st).1.1
        = warnings_of st.1
          ++ (if bool_decide (n = 1%Z) then []
              else [(WARNING, template, [PyInt n])]).
Proof.
  destruct st as [w self]. unfold write_back, on_world, warn_unless_one.
  unfold_monad. simpl.
  destruct (db_execute env (replace_qmark "%s" sql) args)
    as [[rows n]|e] eqn:Hdb.
  - rewrite (execute_answered env sql args w rows n Hdb).
    destruct (Z.eqb_spec n 1) as [->|Hn]; simpl.
    + split; [done |]. intros ? ? [= <- <-]. split; [done |].
      by rewrite warnings_of_info, app_nil_r.
    + unfold logging, on_world. unfold_monad. simpl. split; [done |].
      intros ? ? [= <- <-]. split; [done |].
      rewrite bool_decide_false by done.
      unfold warnings_of. simpl. rewrite !filter_app, !filter_cons. simpl.
      repeat case_decide; try done. by rewrite !filter_nil, app_nil_r.
  - rewrite (execute_failed env sql args w e Hdb). simpl. done.
Qed.

(** ** Reading the fields of a record *)

Lemma same_traffic_refl w : same_traffic w w.
Proof. by repeat split. Qed.

Lemma same_traffic_trans w1 w2 w3 :
  same_traffic w1 w2 → same_traffic w2 w3 → same_traffic w1 w3.
Proof.
  intros (H1 & H2 & H3 & H4) (H1' & H2' & H3' & H4').
  repeat split; try congruence. lia.
Qed.

Lemma mapM_getValue env fs st :
  mapM (getValue env) fs st = (st, Ok (map (getattr_or_none env st.2) fs)).
Proof.
  induction fs as [|f fs IH]; [done |].
  simpl. unfold_monad. simpl. unfold_monad. by rewrite IH.
Qed.

(** [getValueOrDefault] on a key of the mapping: it returns
    [value_or_default], touches no item of the record but that of the
    key, and leaves the traffic as it was. *)
Lemma getValueOrDefault_spec env cls key st :
  is_Some (dict_get key (mappings cls)) →
  ∃ st',
    getValueOrDefault env cls key st
    = (st', Ok (value_or_default env cls st.2 key (clock st.1)))
    ∧ same_traffic st.1 st'.1
    ∧ (∀ k, k ≠ key → st'.2 !! k = st.2 !! k).
Proof.
  intros [fld Hfld]. destruct st as [w self].
  unfold getValueOrDefault, value_or_default. unfold_monad. simpl.
  rewrite Hfld.
  destruct (getattr_or_none env self key) eqn:Hv; simpl;
    try (eexists; split; [reflexivity |];
         split; [apply same_traffic_refl | done]).
  destruct (field_default fld) eqn:Hd; simpl;
    try (eexists; split; [reflexivity |];
         split; [apply same_traffic_refl | done]);
    unfold on_world, logging; unfold_monad; simpl;
    (eexists; split; [reflexivity |]; simpl; split;
     [ unfold same_traffic, warnings_of; unfold_world; simpl;
       rewrite filter_app, filter_cons; simpl;
       rewrite filter_nil, app_nil_r; repeat split; lia
     | intros k Hk; unfold setattr; apply lookup_insert_ne; congruence ]).
Qed.

Lemma value_or_default_ext env cls (self self' : instance) key t :
  self' !! key = self !! key →
  value_or_default env cls self' key t = value_or_default env cls self key t.
Proof.
  intros H. unfold value_or_default, getattr_or_none, getattr. by rewrite H.
Qed.

(** The list [save] maps over the fields: one value per field, each the
    [value_or_default] of its field on the record as it was before
    [save], taken at some generator call number from the current one
    on. *)
Lemma mapM_getValueOrDefault_spec env cls fs st :
  Forall (λ f, is_Some (dict_get f (mappings cls))) fs →
  ∃ st' vs,
    mapM (getValueOrDefault env cls) fs st = (st', Ok vs)
    ∧ same_traffic st.1 st'.1
    ∧ length vs = length fs
    ∧ (∀ k, k ∉ fs → st'.2 !! k = st.2 !! k)
    ∧ (NoDup fs → ∀ i k, fs !! i = Some k →
         ∃ t, clock st.1 ≤ t
              ∧ vs !! i = Some (value_or_default env cls st.2 k t)).
Proof.
  revert st. induction fs as [|f fs IH]; intros st Hfs.
  - exists st, []. split; [done |]. split; [apply same_traffic_refl |].
    split; [done |]. split; [done |]. by intros _ i k Hi.
  - apply Forall_cons in Hfs as [Hf Hfs].
    destruct (getValueOrDefault_spec env cls f st Hf) as (st1 & H1 & Ht1 & Hfr1).
    destruct (IH st1 Hfs) as (st' & vs & H2 & Ht2 & Hlen & Hfr2 & Hvs).
    exists st', (value_or_default env cls st.2 f (clock st.1) :: vs).
    split; [| split; [| split; [| split]]].
    + change (mapM (getValueOrDefault env cls) (f :: fs) st)
        with ((y ← getValueOrDefault env cls f;
               ys ← mapM (getValueOrDefault env cls) fs; mret (y :: ys)) st).
      unfold_monad. rewrite H1. simpl. rewrite H2. done.
    + by eapply same_traffic_trans.
    + simpl. by rewrite Hlen.
    + intros k Hk. apply not_elem_of_cons in Hk as [Hne Hk].
      rewrite Hfr2, Hfr1; done.
    + intros Hnd i k Hi. apply NoDup_cons in Hnd as [Hf' Hnd].
      destruct i as [|i]; simpl in Hi.
      * injection Hi as ->. exists (clock st.1). done.
      * destruct (Hvs Hnd i k Hi) as (t & Ht & Hv).
        assert (k ≠ f) as Hkf.
        { intros ->. apply Hf'. by eapply list_elem_of_lookup_2. }
        exists t. split; [destruct Ht1 as (_ & _ & _ & Hc); lia |].
        simpl. rewrite Hv. f_equal. apply value_or_default_ext. by apply Hfr1.
Qed.

Lemma save_steps env cls st st1 st2 vs v :
  mapM (getValueOrDefault env cls) (fields cls) st = (st1, Ok vs) →
  getValueOrDefault env cls (primary_key cls) st1 = (st2, Ok v) →
  save env cls st
  = write_back env (insert_sql cls)
      "failed to insert record: affected rows: %s" (vs ++ [v]) st2.
Proof.
  intros H1 H2. unfold save, write_back. unfold_monad.
  rewrite H1. simpl. rewrite H2. done.
Qed.

Lemma update_steps env cls st :
  update env cls st
  = write_back env (update_sql cls)
      "failed to update by primary key: affected rows: %s"
      (map (getattr_or_none env st.2) (fields cls)
         ++ [getattr_or_none env st.2 (primary_key cls)]) st.
Proof.
  unfold update, write_back. unfold_monad.
  rewrite mapM_getValue. done.
Qed.

Lemma remove_steps env cls st :
  remove env cls st
  = write_back env (delete_sql cls)
      "failed to remove by primary key: affected rows: %s"
      [getattr_or_none env st.2 (primary_key cls)] st.
Proof. reflexivity. Qed.

(** [save] on a well-formed schema sends one insert, and everything
    before it is free of traffic. *)
Lemma save_spec env cls st :
  schema_ok cls →
  ∃ st2 vs v,
    save env cls st
    = write_back env (insert_sql cls)
        "failed to insert record: affected rows: %s" (vs ++ [v]) st2
    ∧ same_traffic st.1 st2.1
    ∧ length vs = length (fields cls)
    ∧ (∀ i k, fields cls !! i = Some k →
         ∃ t, clock st.1 ≤ t
              ∧ vs !! i = Some (value_or_default env cls st.2 k t)).
Proof.
  intros [Hnd Hall]. apply Forall_app in Hall as [Hfs Hpk].
  apply Forall_cons in Hpk as [Hpk _].
  destruct (mapM_getValueOrDefault_spec env cls (fields cls) st Hfs)
    as (st1 & vs & H1 & Ht1 & Hlen & _ & Hvs).
  destruct (getValueOrDefault_spec env cls (primary_key cls) st1 Hpk)
    as (st2 & H2 & Ht2 & _).
  exists st2, vs, (value_or_default env cls st1.2 (primary_key cls) (clock st1.1)).
  split; [by apply (save_steps env cls st st1) |].
  split; [by eapply same_traffic_trans |].
  split; [done | by apply Hvs].
Qed.

Lemma dict_get_is_Some {V} k (m : list (string * V)) :
  k ∈ m.*1 → is_Some (dict_get k m).
Proof.
  induction m as [|[k' v] m IH]; intros Hin; [by apply elem_of_nil in Hin |].
  simpl. destruct (String.eqb_spec k k'); [by eexists |].
  apply IH. rewrite fmap_cons in Hin. apply elem_of_cons in Hin as [|]; done.
Qed.

Lemma names_filter_subseteq b attrs :
  map fst (filter (λ kf, field_primary_key kf.2 = b) (declared_fields attrs))
  ⊆ (declared_fields attrs).*1.
Proof.
  intros k (kf & -> & Hin)%list_elem_of_fmap.
  apply list_elem_of_filter in Hin as [_ Hin].
  apply list_elem_of_fmap. by exists kf.
Qed.

(** The metaclass establishes [schema_ok]. *)
Lemma derived_schema_ok name tbl attrs cls :
  NoDup attrs.*1 →
  Forall (λ kf, kf.1 ≠ "") (declared_fields attrs) →
  ModelMetaclass_new name tbl attrs = Ok (Derived cls) →
  schema_ok cls.
Proof.
  intros Hnd Hnames Hnew.
  destruct (String.eqb_spec name "Model") as [->|Hname]; [done |].
  rewrite (ModelMetaclass_new_spec name tbl attrs Hname Hnd Hnames) in Hnew.
  destruct (key_names attrs) as [|pk [|? ?]] eqn:Hkeys; try done.
  injection Hnew as <-. split; simpl.
  - by apply non_key_names_NoDup.
  - apply Forall_app. split.
    + apply Forall_forall. intros f Hf.
      by apply dict_get_is_Some, (names_filter_subseteq false).
    + apply Forall_cons. split; [| done].
      apply dict_get_is_Some, (names_filter_subseteq true).
      fold (key_names attrs). rewrite Hkeys. left.
Qed.

Example user_schema_ok : schema_ok user_schema.
Proof.
  apply (derived_schema_ok "User" (Some "users") user_body).
  - apply (bool_decide_unpack _); vm_compute; exact I.
  - repeat constructor; discriminate.
  - reflexivity.
Qed.

(** C5.  For a schema the metaclass derives, [save], [update] and
    [remove] each send one statement; whenever the driver reports an
    affected-row count for it, the operation returns normally ([None]),
    whatever the count; the count shows only in the log, as one warning
    when it is not 1 and as none when it is 1. *)
Theorem writes_only_warn_on_row_mismatch env cls st :
  schema_ok cls →
  (∃ args,
     statements (save env cls st).1.1
     = statements st.1 ++ [(replace_qmark "%s" (insert_sql cls), args)]
     ∧ ∀ rows n,
         db_execute env (replace_qmark "%s" (insert_sql cls)) args
         = Ok (rows, n) →
         (save env cls st).2 = Ok tt
         ∧ warnings_of (save env cls st).1.1
           = warnings_of st.1
             ++ (if bool_decide (n = 1%Z) then []
                 else [(WARNING, "failed to insert record: affected rows: %s",
                        [PyInt n])]))
  ∧ (∃ args,
     statements (update env cls st).1.1
     = statements st.1 ++ [(replace_qmark "%s" (update_sql cls), args)]
     ∧ ∀ rows n,
         db_execute env (replace_qmark "%s" (update_sql cls)) args
         = Ok (rows, n) →
         (update env cls st).2 = Ok tt
         ∧ warnings_of (update env cls st).1.1
           = warnings_of st.1
             ++ (if bool_decide (n = 1%Z) then []
                 else [(WARNING,
                        "failed to update by primary key: affected rows: %s",
                        [PyInt n])]))
  ∧ (∃ args,
     statements (remove env cls st).1.1
     = statements st.1 ++ [(replace_qmark "%s" (delete_sql cls), args)]
     ∧ ∀ rows n,
         db_execute env (replace_qmark "%s" (delete_sql cls)) args
         = Ok (rows, n) →
         (remove env cls st).2 = Ok tt
         ∧ warnings_of (remove env cls st).1.1
           = warnings_of st.1
             ++ (if bool_decide (n = 1%Z) then []
                 else [(WARNING,
                        "failed to remove by primary key: affected rows: %s",
                        [PyInt n])])).
Proof.
  intros Hok. split; [| split].
  - destruct (save_spec env cls st Hok)
      as (st2 & vs & v & -> & (Hst & Hwarn & _) & _).
    exists (vs ++ [v]).
    destruct (write_back_spec env (insert_sql cls)
                "failed to insert record: affected rows: %s" (vs ++ [v]) st2)
      as [Hsent Hret].
    rewrite Hsent, Hst. split; [done |]. intros rows n Hdb.
    destruct (Hret rows n Hdb) as [-> ->]. by rewrite Hwarn.
  - rewrite update_steps. eexists. apply write_back_spec.
  - rewrite remove_steps. eexists. apply write_back_spec.
Qed.

Lemma writes_only_warn_on_row_mismatch_witness :
  schema_ok user_schema
  ∧ (save empty_env user_schema (idle, {["email" := PyStr "a@b.c"]})).2 = Ok tt
  ∧ warnings_of
      (save empty_env user_schema (idle, {["email" := PyStr "a@b.c"]})).1.1
    = [(WARNING, "failed to insert record: affected rows: %s", [PyInt 0])].
Proof.
  split; [exact user_schema_ok |].
  destruct (writes_only_warn_on_row_mismatch empty_env user_schema
              (idle, {["email" := PyStr "a@b.c"]}) user_schema_ok)
    as ((args & _ & Hret) & _).
  apply (Hret [] 0%Z). reflexivity.
Defined.

(** ** Defaults on [save], none on [update] (C3) *)

Lemma getattr_or_none_item env (self : instance) k :
  class_attribute env k = None →
  getattr_or_none env self k = default PyNone (self !! k).
Proof.
  intros Hk. unfold getattr_or_none, getattr. rewrite Hk.
  by destruct (self !! k).
Qed.

Lemma getattr_or_none_found env (self : instance) k found :
  class_attribute env k = Some found →
  getattr_or_none env self k = PyObject found.
Proof. intros Hk. unfold getattr_or_none. by rewrite Hk. Qed.

Lemma value_or_default_unset env cls self k fld t :
  class_attribute env k = None →
  dict_get k (mappings cls) = Some fld →
  unset self k →
  value_or_default env cls self k t = default_value env (field_default fld) t.
Proof.
  intros Hk Hfld Hu. unfold value_or_default.
  rewrite getattr_or_none_item by done.
  destruct Hu as [-> | ->]; simpl; rewrite Hfld;
    by destruct (field_default fld).
Qed.

Lemma value_or_default_found env cls self k found t :
  class_attribute env k = Some found →
  value_or_default env cls self k t = PyObject found.
Proof.
  intros Hk. unfold value_or_default.
  by rewrite (getattr_or_none_found env self k found Hk).
Qed.

(** Where the attribute read reaches the items of the record.  For a
    schema the metaclass derives, a non-key field [k] at position [i]
    whose declared default is not [None] and whose name the lookup on the
    class does not find, and a record in which [k] is unset: the insert
    sent by [save] carries at position [i] the default, or what the
    default returns when it is a callable, called during this [save]; the
    update sent by [update] carries [None] at position [i]. *)
Lemma save_substitutes_default_update_does_not env cls w self i k fld :
  schema_ok cls →
  fields cls !! i = Some k →
  dict_get k (mappings cls) = Some fld →
  field_default fld ≠ PyNone →
  class_attribute env k = None →
  unset self k →
  (∃ args t,
     statements (save env cls (w, self)).1.1
     = statements w ++ [(replace_qmark "%s" (insert_sql cls), args)]
     ∧ clock w ≤ t
     ∧ args !! i = Some (default_value env (field_default fld) t))
  ∧ (∃ args,
     statements (update env cls (w, self)).1.1
     = statements w ++ [(replace_qmark "%s" (update_sql cls), args)]
     ∧ args !! i = Some PyNone).
Proof.
  intros Hok Hi Hfld Hd Hk Hu. split.
  - destruct (save_spec env cls (w, self) Hok)
      as (st2 & vs & v & -> & (Hst & _) & Hlen & Hvs).
    destruct (Hvs i k Hi) as (t & Ht & Hv). simpl in Ht, Hv, Hst.
    exists (vs ++ [v]), t.
    destruct (write_back_spec env (insert_sql cls)
                "failed to insert record: affected rows: %s" (vs ++ [v]) st2)
      as [-> _].
    rewrite Hst. split; [done |]. split; [done |].
    rewrite lookup_app_l by (by eapply lookup_lt_Some).
    rewrite Hv. f_equal. by apply value_or_default_unset.
  - rewrite update_steps. eexists. split; [apply write_back_spec |].
    simpl. rewrite lookup_app_l.
    + rewrite list_lookup_fmap, Hi. simpl. f_equal.
      rewrite getattr_or_none_item by done. by destruct Hu as [-> | ->].
    + rewrite length_map. by eapply lookup_lt_Some.
Qed.

Lemma save_substitutes_default_update_does_not_witness :
  (schema_ok user_schema
   ∧ fields user_schema !! 1 = Some "admin"
   ∧ class_attribute users_env "admin" = None
   ∧ unset ({["email" := PyStr "a@b.c"]} : gmap string pyval) "admin")
  ∧ (∃ args t,
       statements (save users_env user_schema
                     (idle, {["email" := PyStr "a@b.c"]})).1.1
       = statements idle
         ++ [(replace_qmark "%s" (insert_sql user_schema), args)]
       ∧ clock idle ≤ t
       ∧ args !! 1 = Some (PyBool false))
  ∧ (∃ args,
       statements (update users_env user_schema
                     (idle, {["email" := PyStr "a@b.c"]})).1.1
       = statements idle
         ++ [(replace_qmark "%s" (update_sql user_schema), args)]
       ∧ args !! 1 = Some PyNone).
Proof.
  assert (unset ({["email" := PyStr "a@b.c"]} : gmap string pyval) "admin")
    as Hu by (left; reflexivity).
  split;
    [split; [exact user_schema_ok
            | split; [reflexivity | split; [reflexivity | exact Hu]]] |].
  apply (save_substitutes_default_update_does_not users_env user_schema idle
           {["email" := PyStr "a@b.c"]} 1 "admin"
           (BooleanField None (PyBool false)) user_schema_ok);
    [reflexivity | reflexivity | discriminate | reflexivity | exact Hu].
Defined.

(** A field whose name the lookup on the class finds is read as what the
    lookup finds, set or not: [save] and [update] both send that object
    at the position of the field, whatever its default. *)
Lemma save_and_update_send_what_the_class_has env cls w self i k found :
  schema_ok cls →
  fields cls !! i = Some k →
  class_attribute env k = Some found →
  (∃ args,
     statements (save env cls (w, self)).1.1
     = statements w ++ [(replace_qmark "%s" (insert_sql cls), args)]
     ∧ args !! i = Some (PyObject found))
  ∧ (∃ args,
     statements (update env cls (w, self)).1.1
     = statements w ++ [(replace_qmark "%s" (update_sql cls), args)]
     ∧ args !! i = Some (PyObject found)).
Proof.
  intros Hok Hi Hk. split.
  - destruct (save_spec env cls (w, self) Hok)
      as (st2 & vs & v & -> & (Hst & _) & Hlen & Hvs).
    destruct (Hvs i k Hi) as (t & Ht & Hv). simpl in Ht, Hv, Hst.
    exists (vs ++ [v]).
    destruct (write_back_spec env (insert_sql cls)
                "failed to insert record: affected rows: %s" (vs ++ [v]) st2)
      as [-> _].
    rewrite Hst. split; [done |].
    rewrite lookup_app_l by (by eapply lookup_lt_Some).
    rewrite Hv. f_equal. by apply value_or_default_found.
  - rewrite update_steps. eexists. split; [apply write_back_spec |].
    simpl. rewrite lookup_app_l.
    + rewrite list_lookup_fmap, Hi. simpl. f_equal.
      by apply getattr_or_none_found.
    + rewrite length_map. by eapply lookup_lt_Some.
Qed.

Lemma save_and_update_send_what_the_class_has_witness :
  (schema_ok order_schema
   ∧ fields order_schema !! 0 = Some "items"
   ∧ class_attribute users_env "items" = Some "bound method items")
  ∧ (∃ args,
       statements (save users_env order_schema (idle, new_order)).1.1
       = statements idle
         ++ [(replace_qmark "%s" (insert_sql order_schema), args)]
       ∧ args !! 0 = Some (PyObject "bound method items"))
  ∧ (∃ args,
       statements (update users_env order_schema (idle, new_order)).1.1
       = statements idle
         ++ [(replace_qmark "%s" (update_sql order_schema), args)]
       ∧ args !! 0 = Some (PyObject "bound method items")).
Proof.
  assert (schema_ok order_schema) as Hok.
  { apply (derived_schema_ok "Order" None order_body);
      [apply (bool_decide_unpack _); vm_compute; exact I
      | repeat constructor; discriminate
      | reflexivity]. }
  split; [split; [exact Hok | split; reflexivity] |].
  apply (save_and_update_send_what_the_class_has users_env order_schema idle
           new_order 0 "items" "bound method items" Hok);
    reflexivity.
Defined.

(** C3 at a class with a column named like a method of [dict]: on the
    class [Order], whose field [items] has the default ['[]'], and on a
    record with nothing set, [save] sends for [items] not the default
    but the bound method [items] that the attribute read finds on the
    class, and [update] sends the same object, not [None]. *)
Theorem save_sends_the_method_for_a_field_named_items :
  dict_get "items" (mappings order_schema) = Some (TextField None (PyStr "[]"))
  ∧ unset new_order "items"
  ∧ statements (save users_env order_schema (idle, new_order)).1.1
    = [("insert into `Order` (`items`, `id`) values (%s, %s)",
        [PyObject "bound method items"; PyInt 0])]
  ∧ statements (update users_env order_schema (idle, new_order)).1.1
    = [("update `Order` set `items`=%s where `id`=%s",
        [PyObject "bound method items"; PyNone])].
Proof.
  split; [reflexivity |]. split; [left; reflexivity |].
  split; reflexivity.
Qed.

(** The two argument lists of the example, in full: [save] fills in the
    default of [admin] and calls the generator for [id]; [update] sends
    [None] for both. *)
Example save_and_update_arguments :
  statements (save users_env user_schema
                (idle, {["email" := PyStr "a@b.c"]})).1.1
  = [("insert into `users` (`email`, `admin`, `id`) values (%s, %s, %s)",
      [PyStr "a@b.c"; PyBool false; PyInt 0])]
  ∧ statements (update users_env user_schema
                  (idle, {["email" := PyStr "a@b.c"]})).1.1
    = [("update `users` set `email`=%s, `admin`=%s where `id`=%s",
        [PyStr "a@b.c"; PyNone; PyNone])].
Proof. split; reflexivity. Qed.

End OrmSpec.

(* ===================================================================== *)
(** * Properties of the request adapter                                  *)
(* ===================================================================== *)

Module LxfwebSpec.
Import Lxfweb.

(** ** The position of [request] (C6) *)

Lemma request_step_request fn found p :
  name p = "request" → request_step fn found p = Ok true.
Proof. intros H. unfold request_step. by rewrite H. Qed.

Lemma request_step_found fn p :
  name p ≠ "request" →
  request_step fn true p
  = if keyword_like p then Ok true else Raise (misplaced_request fn).
Proof.
  intros H. unfold request_step, keyword_like.
  destruct (String.eqb_spec (name p) "request"); [done |].
  by destruct (param_kind p).
Qed.

Lemma request_step_not_found fn p :
  name p ≠ "request" → request_step fn false p = Ok false.
Proof.
  intros H. unfold request_step.
  by destruct (String.eqb_spec (name p) "request").
Qed.

(** Once [request] was seen, the loop ends well exactly when every
    further parameter is of a kind it lets through. *)
Lemma request_loop_found fn ps :
  "request" ∉ map name ps →
  for_each (request_step fn) true ps
  = if forallb keyword_like ps then Ok true else Raise (misplaced_request fn).
Proof.
  induction ps as [|p ps IH]; intros Hnot; [done |].
  rewrite map_cons in Hnot. apply not_elem_of_cons in Hnot as [Hp Hps].
  simpl for_each. rewrite request_step_found by done.
  simpl forallb. destruct (keyword_like p); simpl; [by apply IH | done].
Qed.

(** Before [request] is seen, nothing is checked. *)
Lemma request_loop_not_found fn ps :
  "request" ∈ map name ps →
  for_each (request_step fn) false ps
  = for_each (request_step fn) true (after_request ps).
Proof.
  induction ps as [|p ps IH]; intros Hin; [by apply elem_of_nil in Hin |].
  simpl for_each. simpl after_request.
  destruct (String.eqb_spec (name p) "request") as [Hp|Hp].
  - by rewrite request_step_request.
  - rewrite request_step_not_found by done. apply IH.
    rewrite map_cons in Hin. apply elem_of_cons in Hin as [|]; done.
Qed.

Lemma after_request_names ps :
  NoDup (map name ps) → "request" ∉ map name (after_request ps).
Proof.
  induction ps as [|p ps IH]; intros Hnd; [by intros ?%elem_of_nil |].
  rewrite map_cons in Hnd. apply NoDup_cons in Hnd as [Hp Hnd].
  simpl. destruct (String.eqb_spec (name p) "request") as [Heq|_].
  - by rewrite <- Heq.
  - by apply IH.
Qed.

Lemma has_request_arg_spec fn :
  "request" ∈ map name (parameters fn) →
  NoDup (map name (parameters fn)) →
  has_request_arg fn
  = if forallb keyword_like (after_request (parameters fn)) then Ok true
    else Raise (misplaced_request fn).
Proof.
  intros Hin Hnd. unfold has_request_arg.
  rewrite request_loop_not_found by done.
  by apply request_loop_found, after_request_names.
Qed.

Lemma forallb_keyword_like ps :
  Forall (λ p, keyword_like p = true) ps → forallb keyword_like ps = true.
Proof. induction 1 as [|p ps Hp _ IH]; simpl; [done | by rewrite Hp]. Qed.

Lemma forallb_plain_positional ps :
  Exists (λ p, plain_positional p = true) ps → forallb keyword_like ps = false.
Proof.
  induction 1 as [p ps Hp|p ps _ IH]; simpl.
  - unfold plain_positional in Hp. unfold keyword_like.
    by destruct (param_kind p).
  - rewrite IH. by destruct (keyword_like p).
Qed.

(** C6.  For a function with a parameter named [request] (parameter
    names are distinct): if every parameter after it is
    variadic-positional, keyword-only or variadic-keyword, building the
    handler succeeds, records that the function takes the request, and
    the route of a decorated function is registered; if some parameter
    after it is plain positional, building the handler, and with it the
    registration, raises [ValueError].  The call of a built handler does
    not look at the parameters again: it is the same whatever they are
    replaced with. *)
Theorem request_position_checked_at_registration fn :
  "request" ∈ map name (parameters fn) →
  NoDup (map name (parameters fn)) →
  (Forall (λ p, keyword_like p = true) (after_request (parameters fn)) →
     ∃ h, RequestHandler_init fn = Ok h
          ∧ _has_request_arg h = true
          ∧ ∀ m path, __method__ fn = Some m → __route__ fn = Some path →
                      add_route fn = Ok (m, path, h))
  ∧ (Exists (λ p, plain_positional p = true) (after_request (parameters fn)) →
     RequestHandler_init fn = Raise (misplaced_request fn)
     ∧ ∀ m path, __method__ fn = Some m → __route__ fn = Some path →
                 add_route fn = Raise (misplaced_request fn))
  ∧ (∀ h, RequestHandler_init fn = Ok h →
     ∀ ps lib request t,
       RequestHandler_call lib (with_parameters ps h) request t
       = RequestHandler_call lib h request t).
Proof.
  intros Hin Hnd. split; [| split].
  - intros Hall. unfold add_route, RequestHandler_init.
    rewrite (has_request_arg_spec fn Hin Hnd), (forallb_keyword_like _ Hall).
    eexists. split; [reflexivity |]. split; [reflexivity |].
    by intros m path -> ->.
  - intros Hex. unfold add_route, RequestHandler_init.
    rewrite (has_request_arg_spec fn Hin Hnd), (forallb_plain_positional _ Hex).
    split; [reflexivity |]. by intros m path -> ->.
  - intros h _ ps lib request t. by destruct h.
Qed.

Lemma request_position_checked_at_registration_witness :
  ("request" ∈ map name (parameters index_fn)
   ∧ NoDup (map name (parameters index_fn))
   ∧ "request" ∈ map name (parameters blog_fn)
   ∧ NoDup (map name (parameters blog_fn)))
  ∧ (∃ h, add_route index_fn = Ok ("GET", "/", h) ∧ _has_request_arg h = true)
  ∧ add_route blog_fn = Raise (misplaced_request blog_fn).
Proof.
  assert ("request" ∈ map name (parameters index_fn)) as H1 by left.
  assert (NoDup (map name (parameters index_fn))) as H2
    by (apply (bool_decide_unpack _); vm_compute; exact I).
  assert ("request" ∈ map name (parameters blog_fn)) as H3 by left.
  assert (NoDup (map name (parameters blog_fn))) as H4
    by (apply (bool_decide_unpack _); vm_compute; exact I).
  split; [done |]. split.
  - destruct (request_position_checked_at_registration index_fn H1 H2)
      as (Hgood & _).
    destruct Hgood as (h & _ & Hflag & Hroute);
      [repeat constructor |].
    exists h. split; [by apply Hroute | exact Hflag].
  - destruct (request_position_checked_at_registration blog_fn H3 H4)
      as (_ & Hbad & _).
    destruct Hbad as [_ Hroute]; [by left |].
    by apply (Hroute "GET" "/blog/{id}").
Defined.

(** ** Keyword mappings (C7) *)

Lemma fold_insert_union (items : list (string * pyval)) (acc : kwmap) :
  fold_left (λ m kv, <[kv.1 := kv.2]> m) items acc = kwargs items ∪ acc.
Proof.
  unfold kwargs. revert acc.
  induction items as [|[k v] items IH]; intros acc; simpl.
  - by rewrite (left_id_L ∅ (∪)).
  - rewrite IH, (IH (<[k:=v]> ∅)).
    rewrite <- (assoc_L (∪)). f_equal.
    by rewrite insert_union_singleton_l, insert_empty.
Qed.

Lemma first_values_loop items (acc : kwmap) :
  Forall (λ kv : string * list string, kv.2 ≠ []) items →
  for_each (λ kw kv,
      match kv.2 with
      | v0 :: _ => Ok (<[kv.1 := PyStr v0]> kw)
      | [] => Raise (Exn IndexError "list index out of range" [])
      end) acc items
  = Ok (fold_left (λ m kv, <[kv.1 := kv.2]> m)
          (map (λ kv, (kv.1, PyStr (hd "" kv.2))) items) acc).
Proof.
  intros Hall. revert acc.
  induction Hall as [|[k vs] items Hvs _ IH]; intros acc; [done |].
  simpl in *. destruct vs as [|v0 vs]; [done |]. apply IH.
Qed.

Lemma first_values_spec lib request :
  Forall (λ kv, kv.2 ≠ []) (parse_qs lib (query_string request)) →
  first_values (parse_qs lib (query_string request))
  = Ok (query_kw lib request).
Proof. intros H. unfold first_values. by rewrite first_values_loop. Qed.

Lemma keep_named_lookup named (kw acc : kwmap) k :
  fold_left (λ copy nm,
      match kw !! nm with
      | Some v => <[nm := v]> copy
      | None => copy
      end) named acc !! k
  = match (if bool_decide (k ∈ named) then kw !! k else None) with
    | Some v => Some v
    | None => acc !! k
    end.
Proof.
  revert acc. induction named as [|nm named IH]; intros acc; simpl.
  - done.
  - rewrite IH. destruct (decide (k ∈ named)) as [Hin|Hnin].
    + rewrite !bool_decide_true by (done || by right).
      destruct (kw !! k) eqn:Hk; [done |].
      destruct (kw !! nm) eqn:Hnm; [| done].
      rewrite lookup_insert_ne; [done | congruence].
    + rewrite (bool_decide_false (k ∈ named)) by done.
      destruct (decide (k = nm)) as [->|Hne].
      * rewrite bool_decide_true by left.
        destruct (kw !! nm); [by rewrite lookup_insert_eq | done].
      * rewrite bool_decide_false
          by (intros [?|?]%elem_of_cons; done).
        destruct (kw !! nm); [| done].
        rewrite lookup_insert_ne; [done | congruence].
Qed.

Lemma keep_named_filter named (kw : kwmap) :
  keep_named named kw = filter (λ kv, kv.1 ∈ named) kw.
Proof.
  apply map_eq. intros k. unfold keep_named.
  rewrite keep_named_lookup, lookup_empty, map_lookup_filter.
  destruct (kw !! k) as [v|] eqn:Hk; simpl.
  - case_bool_decide; [by rewrite option_guard_True | by rewrite option_guard_False].
  - by case_bool_decide.
Qed.

Lemma merge_match_info_spec items (kw : kwmap) t :
  ∃ t', merge_match_info items kw t
        = (t', Ok (fold_left (λ m kv, <[kv.1 := kv.2]> m)
                     (map (λ kv, (kv.1, PyStr kv.2)) items) kw))
        ∧ invoked t' = invoked t.
Proof.
  revert kw t. induction items as [|[k v] items IH]; intros kw t.
  - by exists t.
  - simpl. unfold_monad.
    case_bool_decide; simpl.
    + destruct (IH (<[k:=PyStr v]> kw)
                  (note_warning
                     "Duplicate arg name in named arg and kw args: %s"
                     [PyStr k] t)) as (t' & -> & Ht').
      by exists t'.
    + destruct (IH (<[k:=PyStr v]> kw) t) as (t' & -> & Ht').
      by exists t'.
Qed.

Lemma has_named_kw_args_spec fn :
  get_named_kw_args fn ≠ [] → has_named_kw_args fn = true.
Proof.
  unfold get_named_kw_args, has_named_kw_args.
  induction (parameters fn) as [|p ps IH]; [done |].
  rewrite filter_cons. simpl.
  destruct (kind_eqb (param_kind p) KEYWORD_ONLY) eqn:Hp; simpl; [done |].
  exact IH.
Qed.

(** C7.  A handler built for a function with keyword-only parameters
    and no variadic-keyword parameter, a GET request whose query string
    is not empty (every key of the parsed query string has a value):
    the keyword mapping read from the request is that of the first
    query values, and the mapping that stands after the path parameters
    are merged holds the path parameters and, for the keys that are not
    path parameters, the first query values of the keys among the
    keyword-only names, and nothing else.  When no required name is
    missing from it, the function is called with that mapping (and
    with the request object under [request] when it takes one). *)
Theorem get_query_binding lib fn h request t :
  RequestHandler_init fn = Ok h →
  has_var_kw_arg fn = false →
  get_named_kw_args fn ≠ [] →
  method request = "GET" →
  query_string request ≠ "" →
  Forall (λ kv, kv.2 ≠ []) (parse_qs lib (query_string request)) →
  let bound := path_kw request
               ∪ filter (λ kv, kv.1 ∈ get_named_kw_args fn)
                   (query_kw lib request) in
  read_kw lib h request = Ok (Next (Some (query_kw lib request)))
  ∧ (∃ t', merge_kw h request (Some (query_kw lib request)) t
           = (t', Ok bound)
           ∧ invoked t' = invoked t)
  ∧ (check_required h (inject_request h bound) = Ok (Next tt) →
     invoked (RequestHandler_call lib h request t).1
     = invoked t ++ [inject_request h bound]).
Proof.
  intros Hinit Hvar Hnamed Hget Hqs Hvals bound.
  unfold RequestHandler_init in Hinit. unfold_monad.
  destruct (has_request_arg fn) as [found|e]; [| done].
  injection Hinit as <-.
  set (h := mkRequestHandler fn found (has_var_kw_arg fn)
              (has_named_kw_args fn) (get_named_kw_args fn)
              (get_required_kw_args fn)).
  assert (read_kw lib h request = Ok (Next (Some (query_kw lib request))))
    as Hread.
  { unfold read_kw, needs_kw. simpl.
    rewrite (has_named_kw_args_spec fn Hnamed), Hvar, Hget. simpl.
    assert (str_truthy (query_string request) = true) as ->
      by (by destruct (query_string request)).
    unfold_monad. by rewrite first_values_spec. }
  assert (∃ t', merge_kw h request (Some (query_kw lib request)) t
                = (t', Ok bound) ∧ invoked t' = invoked t) as Hmerge.
  { unfold merge_kw. simpl. rewrite Hvar. simpl.
    rewrite bool_decide_false by done. simpl.
    destruct (merge_match_info_spec (match_info request)
                (keep_named (get_named_kw_args fn) (query_kw lib request)) t)
      as (t' & -> & Ht').
    exists t'. split; [| done].
    by rewrite fold_insert_union, keep_named_filter. }
  split; [done |]. split; [done |].
  intros Hreq. destruct Hmerge as (t' & Hm & Ht').
  unfold RequestHandler_call. unfold_monad.
  rewrite Hread, Hm, Hreq. unfold invoke. unfold_monad. simpl.
  destruct (call fn (inject_request h bound)) as [r|e]; simpl;
    [by rewrite Ht' |].
  destruct (exn_cls e); simpl; by rewrite Ht'.
Qed.

Lemma get_query_binding_witness :
  ∃ h t',
    RequestHandler_init user_fn = Ok h
    ∧ read_kw sample_lib h user_request
      = Ok (Next (Some ({["name" := PyStr "Bob"; "age" := PyStr "30"]} : kwmap)))
    ∧ merge_kw h user_request (Some (query_kw sample_lib user_request))
        (mkTrace [] [])
      = (t', Ok ({["id" := PyStr "7"; "name" := PyStr "Bob"]} : kwmap)).
Proof.
  destruct (get_query_binding sample_lib user_fn
              (mkRequestHandler user_fn false false true ["name"; "email"]
                 ["name"])
              user_request (mkTrace [] []))
    as (Hread & (t' & Hm & _) & _).
  - reflexivity.
  - reflexivity.
  - discriminate.
  - reflexivity.
  - discriminate.
  - repeat constructor; discriminate.
  - exists (mkRequestHandler user_fn false false true ["name"; "email"]
              ["name"]), t'.
    split; [reflexivity |]. split.
    + rewrite Hread. reflexivity.
    + rewrite Hm. reflexivity.
Defined.

(** ** POST bodies (C8) *)

(** What the constructor call of the file amounts to: one positional
    argument, which the constructor does not take. *)
Lemma return_bad_request_raises {A} msg :
  @return_bad_request A msg
  = Raise (Exn TypeError
             "__init__() takes 1 positional argument but %s were given"
             [PyInt 2]).
Proof. reflexivity. Qed.




(** A form body becomes the keyword mapping of its fields. *)
Lemma post_form_is_read lib h request ct :
  needs_kw h = true →
  method request = "POST" →
  content_type request = Some ct → ct ≠ "" →
  startswith (lower ct) "application/json" = false →
  startswith (lower ct) "application/x-www-form-urlencoded"
  || startswith (lower ct) "multipart/form-data" = true →
  read_kw lib h request
  = Ok (Next (Some (dict_of_multidict (post_items request)))).
Proof.
  intros Hkw Hpost Hct Hne Hjson Hform. unfold read_kw, needs_kw in *.
  rewrite Hkw, Hpost, Hct. simpl.
  assert (str_truthy ct = true) as -> by (by destruct ct).
  simpl. rewrite Hjson, Hform. done.
Qed.


(** The three rejections of a POST body all end in the constructor call
    with the message as positional argument. *)
Lemma post_rejections lib h request :
  needs_kw h = true →
  method request = "POST" →
  (opt_truthy (content_type request) = false →
     read_kw lib h request
     = return_bad_request (PyStr "Missing Content-Type."))
  ∧ (∀ ct v,
       content_type request = Some ct → ct ≠ "" →
       startswith (lower ct) "application/json" = true →
       json request = Ok v → isinstance_dict v = false →
       read_kw lib h request
       = return_bad_request (PyStr "JSON body must be object."))
  ∧ (∀ ct,
       content_type request = Some ct → ct ≠ "" →
       startswith (lower ct) "application/json" = false →
       startswith (lower ct) "application/x-www-form-urlencoded"
       || startswith (lower ct) "multipart/form-data" = false →
       read_kw lib h request
       = return_bad_request (PyStr ("Unsupported Content-Type: " +:+ ct))).
Proof.
  intros Hkw Hpost. unfold read_kw, needs_kw in *. rewrite Hkw, Hpost. simpl.
  split; [| split].
  - intros ->. done.
  - intros ct v Hct Hne Hjson Hbody Hv. rewrite Hct. simpl.
    assert (str_truthy ct = true) as -> by (by destruct ct).
    simpl. rewrite Hjson, Hbody. by destruct v.
  - intros ct Hct Hne Hjson Hform. rewrite Hct. simpl.
    assert (str_truthy ct = true) as -> by (by destruct ct).
    simpl. rewrite Hjson, Hform. done.
Qed.

(** A rejected POST body: the call raises, the handler is not invoked. *)
Lemma call_on_rejection lib h request t msg :
  read_kw lib h request = return_bad_request msg →
  RequestHandler_call lib h request t
  = (t, Raise (Exn TypeError
                 "__init__() takes 1 positional argument but %s were given"
                 [PyInt 2])).
Proof.
  intros Hread. unfold RequestHandler_call. unfold_monad.
  by rewrite Hread, return_bad_request_raises.
Qed.

Example user_handler_built :
  RequestHandler_init (post "/user" user_def) = Ok user_handler.
Proof. reflexivity. Qed.

(** C8 at a POST request with [Content-Type: text/plain] for a handler
    with keyword-only parameters: the adapter reaches
    [web.HTTPBadRequest('Unsupported Content-Type: text/plain')], the
    constructor rejects the positional argument, and the call ends in
    [TypeError] instead of returning a response with status 400.  The
    handler is not invoked. *)
Theorem post_text_plain_raises :
  read_kw sample_lib user_handler plain_text_post
  = return_bad_request (PyStr "Unsupported Content-Type: text/plain")
  ∧ RequestHandler_call sample_lib user_handler plain_text_post (mkTrace [] [])
    = (mkTrace [] [],
       Raise (Exn TypeError
                "__init__() takes 1 positional argument but %s were given"
                [PyInt 2]))
  ∧ HTTPBadRequest [] (Some "Unsupported Content-Type: text/plain")
    = Ok (HTTPResponse 400 (Some "Unsupported Content-Type: text/plain")).
Proof. repeat split. Qed.

End LxfwebSpec.

(* ===================================================================== *)
(** * Further properties of the ORM layer                                *)
(* ===================================================================== *)

Module OrmExtra.
Import Orm OrmSpec.

(** ** Reads: [find], [findNumber], [findAll] *)

(** The answer of [select] read off the answer of the driver. *)
Lemma select_result env sql args size w :
  (select env sql args size w).2
  = match db_execute env (replace_qmark "%s" sql) (args_or_empty args) with
    | Ok (rows, _) =>
        Ok (if optint_truthy size then fetchmany rows (default 0%Z size)
            else fetchall rows)
    | Raise e => Raise e
    end.
Proof.
  destruct (db_execute env (replace_qmark "%s" sql) (args_or_empty args))
    as [[rows n]|e] eqn:Hdb.
  - by rewrite (select_answered env sql args size w rows n Hdb).
  - by rewrite (select_failed env sql args size w e Hdb).
Qed.

Lemma join_clause (head : string) keyword text :
  join " " ([head] ++ (if opt_truthy text then [keyword; default "" text]
                       else []))
  = head +:+ clause keyword text.
Proof.
  unfold clause. destruct (opt_truthy text); simpl.
  - reflexivity.
  - by rewrite append_nil_r.
Qed.

Lemma findAll_clauses_text cls where_ orderBy :
  join " " (findAll_clauses cls where_ orderBy)
  = select_sql cls +:+ clause "where" where_ +:+ clause "order by" orderBy.
Proof.
  unfold findAll_clauses, clause.
  destruct (opt_truthy where_), (opt_truthy orderBy); simpl;
    rewrite ?append_nil_r; reflexivity.
Qed.

(** [find] sends the select template with a condition on the key, gives
    the connection back, and answers with the instance of the first row
    of the result set, [None] when there is no row, or the exception of
    the driver. *)
Theorem find_first_row_or_none env cls pk w :
  let text :=
    replace_qmark "%s"
      (select_sql cls +:+ " where `" +:+ primary_key cls +:+ "`=?") in
  statements (find env cls pk w).1 = statements w ++ [(text, [pk])]
  ∧ in_use (find env cls pk w).1 = in_use w
  ∧ (find env cls pk w).2
    = match db_execute env text [pk] with
      | Ok (rows, _) => Ok (Model_init <$> head rows)
      | Raise e => Raise e
      end.
Proof.
  intros text. unfold find. unfold_monad.
  pose proof (select_effects env
    (select_sql cls +:+ " where `" +:+ primary_key cls +:+ "`=?")
    (Some [pk]) (Some 1%Z) w) as [Hst Hin].
  pose proof (select_result env
    (select_sql cls +:+ " where `" +:+ primary_key cls +:+ "`=?")
    (Some [pk]) (Some 1%Z) w) as Hres.
  destruct (select env _ (Some [pk]) (Some 1%Z) w) as [w' [rs|e]];
    simpl in *; fold text in Hst, Hres.
  - destruct (db_execute env text [pk]) as [[rows n]|e]; [| done].
    injection Hres as ->.
    destruct rows as [|r rows]; simpl; done.
  - destruct (db_execute env text [pk]) as [[rows n]|e']; [done |].
    by injection Hres as ->.
Qed.

(** [findNumber] sends [select <field> _num_ from `<table>`], followed
    by the where clause when one is given, with the caller's arguments;
    it answers [None] when there is no row, and otherwise with the
    [_num_] cell of the first row ([KeyError] when the row has none). *)
Theorem findNumber_first_cell_or_none env cls selectField where_ args w :
  let text :=
    replace_qmark "%s"
      ("select " +:+ selectField +:+ " _num_ from `" +:+ table cls +:+ "`"
         +:+ clause "where" where_) in
  statements (findNumber env cls selectField where_ args w).1
  = statements w ++ [(text, args_or_empty args)]
  ∧ (findNumber env cls selectField where_ args w).2
    = match db_execute env text (args_or_empty args) with
      | Ok (rows, _) =>
          match head rows with
          | None => Ok PyNone
          | Some r =>
              match dict_get "_num_" r with
              | Some v => Ok v
              | None => Raise (Exn KeyError "%s" [PyStr "_num_"])
              end
          end
      | Raise e => Raise e
      end.
Proof.
  intros text. unfold findNumber. unfold_monad.
  rewrite join_clause, !append_assoc.
  set (sql := "select " +:+ selectField +:+ " _num_ from `" +:+ table cls
                +:+ "`" +:+ clause "where" where_) in *.
  pose proof (select_effects env sql args (Some 1%Z) w) as [Hst _].
  pose proof (select_result env sql args (Some 1%Z) w) as Hres.
  destruct (select env sql args (Some 1%Z) w) as [w' [rs|e]];
    simpl in *; fold text in Hst, Hres.
  - destruct (db_execute env text (args_or_empty args)) as [[rows n]|e];
      [| done].
    injection Hres as ->. split.
    + destruct rows as [|r rows]; simpl; [done |].
      by destruct (dict_get "_num_" r).
    + destruct rows as [|r rows]; simpl; [done |].
      by destruct (dict_get "_num_" r).
  - destruct (db_execute env text (args_or_empty args)) as [[rows n]|e'];
      [done |].
    by injection Hres as ->.
Qed.

(** [findAll] without a limit sends the select template followed by the
    where clause and then the order-by clause, each only when given and
    not empty, with the caller's arguments; it answers with one
    instance per row of the result set, in order, and leaves the
    caller's list of arguments as it was. *)
Theorem findAll_one_instance_per_row env cls where_ args orderBy w :
  let text :=
    replace_qmark "%s"
      (select_sql cls +:+ clause "where" where_
         +:+ clause "order by" orderBy) in
  statements (findAll env cls where_ args orderBy PyNone w).1
  = statements w ++ [(text, default [] args)]
  ∧ (findAll env cls where_ args orderBy PyNone w).2
    = match db_execute env text (default [] args) with
      | Ok (rows, _) => Ok (default [] args, map Model_init rows)
      | Raise e => Raise e
      end.
Proof.
  intros text. unfold findAll.
  change (findAll_query cls where_ args orderBy PyNone)
    with (Ok (findAll_clauses cls where_ orderBy, default [] args)
          : result (list string * list pyval)).
  unfold_monad. cbn [fst snd]. rewrite findAll_clauses_text.
  set (sql := select_sql cls +:+ clause "where" where_
                +:+ clause "order by" orderBy) in *.
  pose proof (select_effects env sql (Some (default [] args)) None w)
    as [Hst _].
  pose proof (select_result env sql (Some (default [] args)) None w) as Hres.
  rewrite args_or_empty_some in Hst, Hres.
  destruct (select env sql (Some (default [] args)) None w) as [w' [rs|e]];
    simpl in *; fold text in Hst, Hres.
  - destruct (db_execute env text (default [] args)) as [[rows n]|e];
      [| done].
    by injection Hres as ->.
  - destruct (db_execute env text (default [] args)) as [[rows n]|e'];
      [done |].
    by injection Hres as ->.
Qed.

(** ** Writes: what they leave behind *)

(** The last step of a write leaves the record, the pool and the
    generators alone; an exception of the driver goes through it
    unchanged and without a warning. *)
Lemma write_back_frame env sql template args st :
  (write_back env sql template args st).1.2 = st.2
  ∧ in_use (write_back env sql template args st).1.1 = in_use st.1
  ∧ clock (write_back env sql template args st).1.1 = clock st.1
  ∧ ∀ e, db_execute env (replace_qmark "%s" sql) args = Raise e →
         (write_back env sql template args st).2 = Raise e
         ∧ warnings_of (write_back env sql template args st).1.1
           = warnings_of st.1.
Proof.
  destruct st as [w self]. unfold write_back, on_world, warn_unless_one.
  unfold_monad. simpl.
  destruct (db_execute env (replace_qmark "%s" sql) args)
    as [[rows n]|e] eqn:Hdb.
  - rewrite (execute_answered env sql args w rows n Hdb).
    destruct (Z.eqb_spec n 1) as [->|Hn]; simpl; [done |].
    unfold logging, on_world. unfold_monad. simpl. done.
  - rewrite (execute_failed env sql args w e Hdb). simpl.
    split; [done |]. split; [done |]. split; [done |].
    intros e' [= <-]. split; [done |]. apply warnings_of_info.
Qed.








(** [save], [update] and [remove] give the connection back, whatever the
    driver answers; an exception the driver raises for the statement
    sent reaches the caller unchanged, and no warning is logged for
    it. *)
Theorem writes_release_and_let_driver_errors_through env cls st :
  schema_ok cls →
  (in_use (save env cls st).1.1 = in_use st.1
   ∧ ∃ args,
       statements (save env cls st).1.1
       = statements st.1 ++ [(replace_qmark "%s" (insert_sql cls), args)]
       ∧ ∀ e, db_execute env (replace_qmark "%s" (insert_sql cls)) args
              = Raise e →
              (save env cls st).2 = Raise e
              ∧ warnings_of (save env cls st).1.1 = warnings_of st.1)
  ∧ (in_use (update env cls st).1.1 = in_use st.1
     ∧ ∃ args,
         statements (update env cls st).1.1
         = statements st.1 ++ [(replace_qmark "%s" (update_sql cls), args)]
         ∧ ∀ e, db_execute env (replace_qmark "%s" (update_sql cls)) args
                = Raise e →
                (update env cls st).2 = Raise e
                ∧ warnings_of (update env cls st).1.1 = warnings_of st.1)
  ∧ (in_use (remove env cls st).1.1 = in_use st.1
     ∧ ∃ args,
         statements (remove env cls st).1.1
         = statements st.1 ++ [(replace_qmark "%s" (delete_sql cls), args)]
         ∧ ∀ e, db_execute env (replace_qmark "%s" (delete_sql cls)) args
                = Raise e →
                (remove env cls st).2 = Raise e
                ∧ warnings_of (remove env cls st).1.1 = warnings_of st.1).
Proof.
  intros Hok. split; [| split].
  - destruct (save_spec env cls st Hok)
      as (st2 & vs & v & -> & (Hst & Hwarn & Hin & _) & _).
    set (template := "failed to insert record: affected rows: %s").
    destruct (write_back_spec env (insert_sql cls) template (vs ++ [v]) st2)
      as [Hsent _].
    destruct (write_back_frame env (insert_sql cls) template (vs ++ [v]) st2)
      as (_ & Huse & _ & Hfail).
    split; [by rewrite Huse |]. exists (vs ++ [v]).
    split; [by rewrite Hsent, Hst |].
    intros e He. destruct (Hfail e He) as [-> ->]. done.
  - rewrite update_steps.
    split; [apply write_back_frame |]. eexists.
    split; [apply write_back_spec | apply write_back_frame].
  - rewrite remove_steps.
    split; [apply write_back_frame |]. eexists.
    split; [apply write_back_spec | apply write_back_frame].
Qed.

Lemma writes_release_and_let_driver_errors_through_witness :
  schema_ok user_schema
  ∧ (save broken_env user_schema (idle, new_user)).2
    = Raise (Exn DriverError "server has gone away" [])
  ∧ warnings_of (save broken_env user_schema (idle, new_user)).1.1 = []
  ∧ in_use (save broken_env user_schema (idle, new_user)).1.1 = 0.
Proof.
  split; [exact user_schema_ok |].
  destruct (writes_release_and_let_driver_errors_through broken_env
              user_schema (idle, new_user) user_schema_ok)
    as ((Huse & args & _ & Hfail) & _).
  destruct (Hfail (Exn DriverError "server has gone away" []) eq_refl)
    as [Hres Hwarn].
  split; [exact Hres |]. split; [exact Hwarn | exact Huse].
Defined.

(** [update] and [remove] leave the record as it is and call no
    generator: no default reaches the record or the statement they
    send. *)
Theorem update_and_remove_leave_the_record env cls st :
  (update env cls st).1.2 = st.2
  ∧ clock (update env cls st).1.1 = clock st.1
  ∧ (remove env cls st).1.2 = st.2
  ∧ clock (remove env cls st).1.1 = clock st.1.
Proof.
  rewrite update_steps, remove_steps.
  set (tu := "failed to update by primary key: affected rows: %s").
  set (tr := "failed to remove by primary key: affected rows: %s").
  destruct (write_back_frame env (update_sql cls) tu
              (map (getattr_or_none env st.2) (fields cls)
                 ++ [getattr_or_none env st.2 (primary_key cls)]) st)
    as (H1 & _ & H2 & _).
  destruct (write_back_frame env (delete_sql cls) tr
              [getattr_or_none env st.2 (primary_key cls)] st)
    as (H3 & _ & H4 & _).
  done.
Qed.

(** ** Markers and arguments *)

Lemma count_char_join c sep (l : list string) m :
  count_char c sep = 0 →
  Forall (λ x, count_char c x = m) l →
  count_char c (join sep l) = m * length l.
Proof.
  intros Hsep Hl. induction Hl as [|x l Hx Hl IH]; [simpl; lia |].
  destruct l as [|y l].
  - simpl. rewrite Hx. lia.
  - rewrite join_cons_cons, !count_char_app, Hx, Hsep, IH. simpl. lia.
Qed.

Lemma dict_get_Some_elem {V} k (v : V) (m : list (string * V)) :
  dict_get k m = Some v → (k, v) ∈ m.
Proof.
  induction m as [|[k' v'] m IH]; [done |]. simpl.
  destruct (String.eqb_spec k k') as [->|_].
  - intros [= ->]. left.
  - intros H. right. by apply IH.
Qed.

Lemma escaped_plain fs :
  Forall plain fs → Forall (λ x, count_char "?" x = 0) (map escaped fs).
Proof.
  intros H. apply Forall_fmap. eapply Forall_impl; [exact H |].
  intros f Hf. unfold escaped. simpl. rewrite !count_char_app, Hf. done.
Qed.

Lemma set_item_one_marker m fs :
  Forall plain fs →
  Forall (λ kf, plain kf.1 ∧ ∀ c, field_name kf.2 = Some c → plain c) m →
  Forall (λ x, count_char "?" x = 1) (map (set_item m) fs).
Proof.
  intros Hfs Hm. apply Forall_fmap. eapply Forall_impl; [exact Hfs |].
  intros f Hf. unfold set_item. simpl.
  assert (plain (match dict_get f m with
                 | Some fld => if opt_truthy (field_name fld)
                               then default f (field_name fld) else f
                 | None => f
                 end)) as Hcol.
  { destruct (dict_get f m) as [fld|] eqn:Hget; [| done].
    apply dict_get_Some_elem in Hget.
    rewrite Forall_forall in Hm. destruct (Hm _ Hget) as [_ Hname].
    simpl in Hname.
    destruct (field_name fld) as [c|]; simpl; [| done].
    destruct (str_truthy c); [by apply Hname | done]. }
  rewrite !count_char_app, Hcol. done.
Qed.

Lemma names_plain b attrs :
  plain_names attrs →
  Forall plain
    (map fst (filter (λ kf, field_primary_key kf.2 = b) (declared_fields attrs))).
Proof.
  intros H. unfold plain_names in H. rewrite Forall_forall in H.
  apply Forall_forall. intros x (kf & -> & Hin)%list_elem_of_fmap.
  apply list_elem_of_filter in Hin as [_ Hin]. by apply H.
Qed.

(** The number of markers in each template of a derived schema whose
    names are free of question marks. *)
Lemma template_markers name tbl attrs cls :
  NoDup attrs.*1 →
  Forall (λ kf, kf.1 ≠ "") (declared_fields attrs) →
  ModelMetaclass_new name tbl attrs = Ok (Derived cls) →
  plain (table cls) →
  plain_names attrs →
  count_char "?" (select_sql cls) = 0
  ∧ count_char "?" (insert_sql cls) = length (fields cls) + 1
  ∧ count_char "?" (update_sql cls) = length (fields cls) + 1
  ∧ count_char "?" (delete_sql cls) = 1.
Proof.
  intros Hnd Hnames Hnew Htable Hplain.
  destruct (String.eqb_spec name "Model") as [->|Hname]; [done |].
  rewrite (ModelMetaclass_new_spec name tbl attrs Hname Hnd Hnames) in Hnew.
  destruct (key_names attrs) as [|pk [|? ?]] eqn:Hkeys; try done.
  injection Hnew as <-. simpl in *.
  assert (plain pk) as Hpk.
  { pose proof (names_plain true attrs Hplain) as Hk.
    fold (key_names attrs) in Hk. rewrite Hkeys in Hk.
    by apply Forall_cons in Hk as [Hk _]. }
  pose proof (names_plain false attrs Hplain) as Hfs.
  fold (non_key_names attrs) in Hfs.
  pose proof (count_char_join "?" ", " _ 0 eq_refl (escaped_plain _ Hfs))
    as Hcols.
  pose proof (count_char_join "?" ", " _ 1 eq_refl
                (set_item_one_marker _ _ Hfs Hplain)) as Hitems.
  rewrite length_map in Hcols, Hitems.
  unfold render_select, render_insert, render_update, render_delete.
  rewrite create_args_string_spec, !count_char_app, Hcols, Hitems, Htable, Hpk.
  rewrite length_map, Nat.add_1_r, count_join_marks. simpl.
  repeat split; lia.
Qed.

(** For a derived schema whose names are free of question marks, each
    write sends as many arguments as its statement has markers. *)
Theorem writes_send_one_argument_per_marker env name tbl attrs cls st :
  NoDup attrs.*1 →
  Forall (λ kf, kf.1 ≠ "") (declared_fields attrs) →
  ModelMetaclass_new name tbl attrs = Ok (Derived cls) →
  plain (table cls) →
  plain_names attrs →
  (∃ args,
     statements (save env cls st).1.1
     = statements st.1 ++ [(replace_qmark "%s" (insert_sql cls), args)]
     ∧ length args = count_char "?" (insert_sql cls))
  ∧ (∃ args,
     statements (update env cls st).1.1
     = statements st.1 ++ [(replace_qmark "%s" (update_sql cls), args)]
     ∧ length args = count_char "?" (update_sql cls))
  ∧ (∃ args,
     statements (remove env cls st).1.1
     = statements st.1 ++ [(replace_qmark "%s" (delete_sql cls), args)]
     ∧ length args = count_char "?" (delete_sql cls))
  ∧ count_char "?" (select_sql cls) = 0.
Proof.
  intros Hnd Hnames Hnew Htable Hplain.
  destruct (template_markers name tbl attrs cls Hnd Hnames Hnew Htable Hplain)
    as (Hsel & Hins & Hupd & Hdel).
  pose proof (derived_schema_ok name tbl attrs cls Hnd Hnames Hnew) as Hok.
  split; [| split; [| split; [| done]]].
  - destruct (save_spec env cls st Hok)
      as (st2 & vs & v & -> & (Hst & _) & Hlen & _).
    exists (vs ++ [v]). split.
    + destruct (write_back_spec env (insert_sql cls)
                  "failed to insert record: affected rows: %s" (vs ++ [v]) st2)
        as [-> _].
      by rewrite Hst.
    + rewrite length_app, Hlen, Hins. done.
  - rewrite update_steps. eexists. split; [apply write_back_spec |].
    rewrite length_app, length_map, Hupd. done.
  - rewrite remove_steps. eexists. split; [apply write_back_spec |].
    by rewrite Hdel.
Qed.

Lemma writes_send_one_argument_per_marker_witness :
  (NoDup user_body.*1
   ∧ Forall (λ kf, kf.1 ≠ "") (declared_fields user_body)
   ∧ plain (table user_schema)
   ∧ plain_names user_body)
  ∧ ∃ args,
      statements (save users_env user_schema (idle, new_user)).1.1
      = statements idle
        ++ [(replace_qmark "%s" (insert_sql user_schema), args)]
      ∧ length args = 3.
Proof.
  assert (NoDup user_body.*1) as H1
    by (apply (bool_decide_unpack _); vm_compute; exact I).
  assert (Forall (λ kf, kf.1 ≠ "") (declared_fields user_body)) as H2
    by (repeat constructor; discriminate).
  assert (plain (table user_schema)) as H3 by reflexivity.
  assert (plain_names user_body) as H4
    by (repeat constructor; simpl; try reflexivity; discriminate).
  split; [done |].
  destruct (writes_send_one_argument_per_marker users_env "User"
              (Some "users") user_body user_schema (idle, new_user) H1 H2
              eq_refl H3 H4) as ((args & Hst & Hlen) & _).
  exists args. split; [exact Hst | exact Hlen].
Defined.

(** ** The class the metaclass leaves *)

Lemma declared_fields_elem_inv k f attrs :
  (k, f) ∈ declared_fields attrs → (k, AField f) ∈ attrs.
Proof.
  intros ([k' a] & Hin & Ha)%list_elem_of_omap. simpl in Ha.
  destruct a as [f'|v]; [| done]. by injection Ha as -> ->.
Qed.

Lemma filter_ext_elem {A} (P Q : A → Prop)
    `{!∀ x, Decision (P x), !∀ x, Decision (Q x)} (l : list A) :
  (∀ x, x ∈ l → P x ↔ Q x) → filter P l = filter Q l.
Proof.
  induction l as [|a l IH]; intros Hext; [done |].
  rewrite !filter_cons, IH by (intros x Hx; apply Hext; by right).
  destruct (decide (P a)) as [HP|HP], (decide (Q a)) as [HQ|HQ]; try done.
  - destruct HQ. apply Hext; [left | done].
  - destruct HP. apply Hext; [left | done].
Qed.

(** In a derived class the fields are gone from what the class keeps
    of its body, and so is any entry under the name of an attribute the
    metaclass writes; everything else is there, in declaration order.
    The mapping holds exactly the fields.  The table is the declared
    one, or the class name when none or an empty one is declared.  Here
    [attrs] is the class body apart from its [__table__] entry, which
    is [tbl]. *)
Theorem derived_class_keeps_no_field name tbl attrs cls :
  NoDup attrs.*1 →
  ("__table__" ∉ attrs.*1) →
  Forall (λ kf, kf.1 ≠ "") (declared_fields attrs) →
  ModelMetaclass_new name tbl attrs = Ok (Derived cls) →
  namespace cls
  = filter (λ kv, is_field kv.2 = false ∧ is_derived_name kv.1 = false) attrs
  ∧ mappings cls = declared_fields attrs
  ∧ (∀ k, is_Some (dict_get k (mappings cls)) → dict_get k (namespace cls) = None)
  ∧ (∀ k, is_derived_name k = true → dict_get k (namespace cls) = None)
  ∧ table cls = match tbl with
                | Some (String c t) => String c t
                | _ => name
                end.
Proof.
  intros Hnd _ Hnames Hnew.
  destruct (String.eqb_spec name "Model") as [->|Hname]; [done |].
  rewrite (ModelMetaclass_new_spec name tbl attrs Hname Hnd Hnames) in Hnew.
  destruct (key_names attrs) as [|pk [|? ?]] eqn:Hkeys; try done.
  injection Hnew as <-. simpl.
  assert (∀ k a, (k, a) ∈ attrs →
            negb (dict_has k (declared_fields attrs)) ↔ is_field a = false)
    as Hfield.
  { intros k a Hin. unfold dict_has. destruct a as [f|v]; simpl.
    - rewrite (dict_get_elem k f (declared_fields attrs)); simpl;
        [done | by apply declared_fields_NoDup | by apply declared_fields_elem].
    - destruct (dict_get k (declared_fields attrs)) as [f|] eqn:Hget; [| done].
      apply dict_get_Some_elem, declared_fields_elem_inv in Hget.
      pose proof (dict_get_elem k _ attrs Hnd Hin) as H1.
      pose proof (dict_get_elem k _ attrs Hnd Hget) as H2. congruence. }
  assert (filter (λ kv : string * attr,
                    negb (dict_has kv.1 (declared_fields attrs))
                    && negb (is_derived_name kv.1)) attrs
          = filter (λ kv, is_field kv.2 = false
                          ∧ is_derived_name kv.1 = false) attrs) as Hns.
  { apply filter_ext_elem. intros [k a] Hin. simpl.
    rewrite andb_True, (Hfield k a Hin).
    destruct (is_derived_name k); simpl; split; intros [? ?]; done. }
  split; [exact Hns |]. split; [done |]. split; [| split].
  - intros k [f Hf]. rewrite Hns.
    destruct (dict_get k (filter _ attrs)) as [a|] eqn:Hget; [| done].
    apply dict_get_Some_elem, list_elem_of_filter in Hget as [[Hother _] Hin].
    apply dict_get_Some_elem, declared_fields_elem_inv in Hf.
    pose proof (dict_get_elem k _ attrs Hnd Hin) as H1.
    pose proof (dict_get_elem k _ attrs Hnd Hf) as H2.
    rewrite H1 in H2. injection H2 as ->. done.
  - intros k Hk. rewrite Hns.
    destruct (dict_get k (filter _ attrs)) as [a|] eqn:Hget; [| done].
    apply dict_get_Some_elem, list_elem_of_filter in Hget as [[_ Hd] _].
    simpl in Hd. congruence.
  - by destruct tbl as [[|c t]|].
Qed.

Lemma derived_class_keeps_no_field_witness :
  (NoDup user_body.*1
   ∧ ("__table__" ∉ user_body.*1)
   ∧ Forall (λ kf, kf.1 ≠ "") (declared_fields user_body))
  ∧ namespace user_schema = [("__doc__", AOther (PyStr "a user"))]
  ∧ table user_schema = "users".
Proof.
  assert (NoDup user_body.*1) as H1
    by (apply (bool_decide_unpack _); vm_compute; exact I).
  assert ("__table__" ∉ user_body.*1) as H0
    by (apply (bool_decide_unpack _); vm_compute; exact I).
  assert (Forall (λ kf, kf.1 ≠ "") (declared_fields user_body)) as H2
    by (repeat constructor; discriminate).
  split; [done |].
  destruct (derived_class_keeps_no_field "User" (Some "users") user_body
              user_schema H1 H0 H2 eq_refl) as (Hns & _ & _ & _ & Htable).
  split; [exact Hns | exact Htable].
Defined.

(** A body entry under the name of a derived attribute does not survive:
    the class has the statement the metaclass renders. *)
Example body_entry_under_a_derived_name :
  ∃ cls,
    ModelMetaclass_new "Tag" None
      (tag_body ++ [("__select__", AOther (PyStr "select 1"));
                    ("notes", AOther (PyStr "kept"))])
    = Ok (Derived cls)
    ∧ namespace cls = [("notes", AOther (PyStr "kept"))]
    ∧ select_sql cls = "select `id`,  from `Tag`".
Proof. eexists. split; [reflexivity |]. split; reflexivity. Qed.

(** ** A class with nothing but its key *)

(** A class whose only field is its key gets its templates rendered as
    any other: the separator that follows the list of non-key columns is
    there with nothing before it, in the insert as [(, `pk`)], in the
    select as [`pk`,  from], and the update has an empty [set]. *)
Theorem key_only_class_templates name tbl attrs pk :
  name ≠ "Model" →
  NoDup attrs.*1 →
  Forall (λ kf, kf.1 ≠ "") (declared_fields attrs) →
  key_names attrs = [pk] →
  non_key_names attrs = [] →
  ∃ s, ModelMetaclass_new name tbl attrs = Ok (Derived s)
       ∧ fields s = []
       ∧ primary_key s = pk
       ∧ insert_sql s
         = "insert into `" +:+ table s +:+ "` (, `" +:+ pk +:+ "`) values (?)"
       ∧ select_sql s
         = "select `" +:+ pk +:+ "`,  from `" +:+ table s +:+ "`"
       ∧ update_sql s
         = "update `" +:+ table s +:+ "` set  where `" +:+ pk +:+ "`=?".
Proof.
  intros Hname Hnd Hnames Hkey Hnone.
  rewrite (ModelMetaclass_new_spec name tbl attrs Hname Hnd Hnames), Hkey.
  eexists. split; [reflexivity |]. simpl. rewrite Hnone.
  split; [done |]. split; [done |]. split; [| split]; reflexivity.
Qed.

Lemma key_only_class_templates_witness :
  ∃ s, ModelMetaclass_new "Tag" None tag_body = Ok (Derived s)
       ∧ insert_sql s = "insert into `Tag` (, `id`) values (?)"
       ∧ select_sql s = "select `id`,  from `Tag`"
       ∧ update_sql s = "update `Tag` set  where `id`=?".
Proof.
  destruct (key_only_class_templates "Tag" None tag_body "id")
    as (s & Hs & _ & _ & Hins & Hsel & Hupd).
  - discriminate.
  - apply (bool_decide_unpack _); vm_compute; exact I.
  - repeat constructor; discriminate.
  - reflexivity.
  - reflexivity.
  - exists s. split; [exact Hs |].
    rewrite Hins, Hsel, Hupd. injection Hs as <-.
    split; [| split]; reflexivity.
Defined.

(** ** Records as dictionaries *)




(** ** [create_pool] *)

(** [create_pool] reaches the driver exactly when [user], [password] and
    [db] are given, and raises [KeyError] otherwise; a keyword that is
    not one of its nine options changes nothing. *)
Theorem create_pool_needs_credentials kw w k v :
  (is_Some (kw !! "user") ∧ is_Some (kw !! "password") ∧ is_Some (kw !! "db")
   ↔ is_raise (create_pool kw w).2 = false)
  ∧ (∀ e, (create_pool kw w).2 = Raise e → exn_cls e = KeyError)
  ∧ (k ∉ pool_options → create_pool (<[k := v]> kw) w = create_pool kw w).
Proof.
  unfold create_pool, logging, subscript, get_or. unfold_monad. simpl.
  split; [| split].
  - destruct (kw !! "user"), (kw !! "password"), (kw !! "db"); simpl;
      split; try done; intros (H1 & H2 & H3);
      by (destruct H1 || destruct H2 || destruct H3).
  - intros e.
    destruct (kw !! "user"), (kw !! "password"), (kw !! "db"); simpl;
      try done; by intros [= <-].
  - intros Hk. unfold pool_options in Hk.
    rewrite !lookup_insert_ne; [done | ..];
      intros ->; apply Hk; set_solver.
Qed.

(** ** Given values and cursors *)

Lemma getValueOrDefault_set env cls key st :
  getattr_or_none env st.2 key ≠ PyNone →
  getValueOrDefault env cls key st = (st, Ok (getattr_or_none env st.2 key)).
Proof.
  intros Hset. destruct st as [w self].
  unfold getValueOrDefault. unfold_monad. simpl in *.
  by destruct (getattr_or_none env self key).
Qed.

Lemma mapM_getValueOrDefault_set env cls fs st :
  Forall (λ k, getattr_or_none env st.2 k ≠ PyNone) fs →
  mapM (getValueOrDefault env cls) fs st
  = (st, Ok (map (getattr_or_none env st.2) fs)).
Proof.
  induction 1 as [|f fs Hf _ IH]; [done |].
  change (mapM (getValueOrDefault env cls) (f :: fs) st)
    with ((y ← getValueOrDefault env cls f;
           ys ← mapM (getValueOrDefault env cls) fs; mret (y :: ys)) st).
  unfold_monad. rewrite getValueOrDefault_set by done. simpl.
  by rewrite IH.
Qed.

(** On a record on which every field and the key read as something
    other than [None], [save] sends what the reads give (the item of the
    record, or what the class has under the name when the lookup on the
    class finds it): no default is read, no generator is called, the
    record stays as it is, and the arguments are those [update] sends
    for the same record. *)
Theorem save_keeps_given_values env cls st :
  Forall (λ k, getattr_or_none env st.2 k ≠ PyNone)
    (fields cls ++ [primary_key cls]) →
  let args := map (getattr_or_none env st.2) (fields cls ++ [primary_key cls]) in
  statements (save env cls st).1.1
  = statements st.1 ++ [(replace_qmark "%s" (insert_sql cls), args)]
  ∧ statements (update env cls st).1.1
    = statements st.1 ++ [(replace_qmark "%s" (update_sql cls), args)]
  ∧ (save env cls st).1.2 = st.2
  ∧ clock (save env cls st).1.1 = clock st.1.
Proof.
  intros Hall args. apply Forall_app in Hall as [Hfs Hkey].
  apply Forall_cons in Hkey as [Hkey _].
  rewrite (save_steps env cls st st st _ _
             (mapM_getValueOrDefault_set env cls _ st Hfs)
             (getValueOrDefault_set env cls _ st Hkey)).
  rewrite update_steps. subst args. rewrite map_app. simpl.
  split; [apply write_back_spec |]. split; [apply write_back_spec |].
  split; apply write_back_frame.
Qed.

Lemma save_keeps_given_values_witness :
  Forall (λ k, getattr_or_none users_env full_user k ≠ PyNone)
    (fields user_schema ++ [primary_key user_schema])
  ∧ statements (save users_env user_schema (idle, full_user)).1.1
    = [("insert into `users` (`email`, `admin`, `id`) values (%s, %s, %s)",
        [PyStr "a@b.c"; PyBool true; PyStr "u1"])]
  ∧ clock (save users_env user_schema (idle, full_user)).1.1 = 0.
Proof.
  assert (Forall (λ k, getattr_or_none users_env full_user k ≠ PyNone)
            (fields user_schema ++ [primary_key user_schema])) as H
    by (repeat constructor; discriminate).
  split; [exact H |].
  destruct (save_keeps_given_values users_env user_schema (idle, full_user) H)
    as (Hst & _ & _ & Hclock).
  split; [exact Hst | exact Hclock].
Defined.

(** [select] and [execute] close the cursor they open when the driver
    answers; when the driver raises, the cursor stays open while the
    connection still goes back to the pool. *)
Theorem cursor_is_closed_only_on_success env sql args size values w :
  cursors (select env sql args size w).1
  = cursors w
    + (if is_raise (db_execute env (replace_qmark "%s" sql)
                      (args_or_empty args)) then 1 else 0)
  ∧ in_use (select env sql args size w).1 = in_use w
  ∧ cursors (execute env sql values w).1
    = cursors w
      + (if is_raise (db_execute env (replace_qmark "%s" sql) values)
         then 1 else 0)
  ∧ in_use (execute env sql values w).1 = in_use w.
Proof.
  assert (∀ k, k + 0 = k) as H0 by (intros; lia).
  assert (∀ k, k + 1 = S k) as H1 by (intros; lia).
  split; [| split; [| split]].
  - destruct (db_execute env (replace_qmark "%s" sql) (args_or_empty args))
      as [[rows n]|e] eqn:Hdb.
    + by rewrite (select_answered env sql args size w rows n Hdb), H0.
    + by rewrite (select_failed env sql args size w e Hdb), H1.
  - apply select_effects.
  - destruct (db_execute env (replace_qmark "%s" sql) values)
      as [[rows n]|e] eqn:Hdb.
    + by rewrite (execute_answered env sql values w rows n Hdb), H0.
    + by rewrite (execute_failed env sql values w e Hdb), H1.
  - destruct (db_execute env (replace_qmark "%s" sql) values)
      as [[rows n]|e] eqn:Hdb.
    + by rewrite (execute_answered env sql values w rows n Hdb).
    + by rewrite (execute_failed env sql values w e Hdb).
Qed.

End OrmExtra.

(* ===================================================================== *)
(** * Further properties of the request adapter                          *)
(* ===================================================================== *)

Module LxfwebExtra.
Import Lxfweb LxfwebSpec.

(** ** Signatures *)

Lemma request_loop_absent fn ps :
  "request" ∉ map name ps → for_each (request_step fn) false ps = Ok false.
Proof.
  induction ps as [|p ps IH]; intros Hnot; [done |].
  rewrite map_cons in Hnot. apply not_elem_of_cons in Hnot as [Hp Hps].
  simpl for_each. rewrite request_step_not_found by done. by apply IH.
Qed.

(** A function without a parameter named [request] passes the check
    whatever the kinds of its parameters; its handler is built, and no
    request object is put among the keyword arguments. *)
Theorem no_request_parameter_no_check fn :
  "request" ∉ map name (parameters fn) →
  has_request_arg fn = Ok false
  ∧ ∃ h, RequestHandler_init fn = Ok h
         ∧ _has_request_arg h = false
         ∧ ∀ kw, inject_request h kw = kw.
Proof.
  intros Hnot. unfold RequestHandler_init, has_request_arg.
  rewrite (request_loop_absent fn _ Hnot). split; [done |].
  eexists. split; [reflexivity |]. done.
Qed.

Lemma no_request_parameter_no_check_witness :
  ("request" ∉ map name (parameters user_fn))
  ∧ has_request_arg user_fn = Ok false.
Proof.
  assert ("request" ∉ map name (parameters user_fn)) as H
    by (apply (bool_decide_unpack _); vm_compute; exact I).
  split; [exact H |].
  by destruct (no_request_parameter_no_check user_fn H) as [Hres _].
Defined.

Lemma required_sublist_named ps :
  (map name (filter (λ p, kind_eqb (param_kind p) KEYWORD_ONLY
                          && negb (has_default p)) ps))
  `sublist_of`
  (map name (filter (λ p, kind_eqb (param_kind p) KEYWORD_ONLY) ps)).
Proof.
  induction ps as [|p ps IH]; [constructor |].
  rewrite !filter_cons.
  destruct (kind_eqb (param_kind p) KEYWORD_ONLY), (has_default p); simpl;
    by (apply sublist_skip || apply sublist_cons || exact IH).
Qed.

Lemma has_named_kw_args_false fn :
  has_named_kw_args fn = false → get_named_kw_args fn = [].
Proof.
  unfold get_named_kw_args, has_named_kw_args.
  induction (parameters fn) as [|p ps IH]; [done |].
  rewrite filter_cons. simpl.
  destruct (kind_eqb (param_kind p) KEYWORD_ONLY); simpl; [done | exact IH].
Qed.

(** The required keyword-only names are among the keyword-only names,
    in the same order; there are keyword-only names exactly when
    [has_named_kw_args] says so.  Hence a built handler needs keyword
    arguments exactly when its function has a variadic-keyword or a
    keyword-only parameter. *)
Theorem required_names_are_named fn :
  (get_required_kw_args fn `sublist_of` get_named_kw_args fn)
  ∧ (has_named_kw_args fn = true ↔ get_named_kw_args fn ≠ [])
  ∧ ∀ h, RequestHandler_init fn = Ok h →
         needs_kw h = has_var_kw_arg fn || has_named_kw_args fn.
Proof.
  split; [apply required_sublist_named |]. split.
  - split; [| apply has_named_kw_args_spec].
    intros Htrue Hnil.
    unfold get_named_kw_args, has_named_kw_args in *.
    induction (parameters fn) as [|p ps IH]; [done |].
    rewrite filter_cons in Hnil. simpl in *.
    destruct (kind_eqb (param_kind p) KEYWORD_ONLY); simpl in *; [done |].
    by apply IH.
  - intros h Hinit. unfold RequestHandler_init in Hinit. unfold_monad.
    destruct (has_request_arg fn) as [found|e]; [| done].
    injection Hinit as <-. unfold needs_kw. simpl.
    destruct (has_var_kw_arg fn); [done |]. simpl.
    destruct (has_named_kw_args fn) eqn:Hnamed; [done |]. simpl.
    pose proof (required_sublist_named (parameters fn)) as Hsub.
    fold (get_required_kw_args fn) (get_named_kw_args fn) in Hsub.
    rewrite (has_named_kw_args_false fn Hnamed) in Hsub.
    apply sublist_nil_r in Hsub. by rewrite Hsub.
Qed.

(** ** The keyword mapping *)

Lemma merge_kw_spec h request kw t :
  ∃ t', merge_kw h request kw t = (t', Ok (path_kw request ∪ kept h kw))
        ∧ invoked t' = invoked t.
Proof.
  destruct kw as [m|]; simpl.
  - destruct (merge_match_info_spec (match_info request)
                (if negb (_has_var_kw_arg h)
                    && negb (bool_decide (_named_kw_args h = []))
                 then keep_named (_named_kw_args h) m else m) t)
      as (t' & -> & Ht').
    exists t'. split; [| done]. rewrite fold_insert_union.
    destruct (negb (_has_var_kw_arg h)
              && negb (bool_decide (_named_kw_args h = [])));
      by rewrite ?keep_named_filter.
  - exists t. split; [| done]. unfold_monad.
    by rewrite (right_id_L ∅ (∪)).
Qed.

(** Whatever was read from the request, the mapping that stands after
    the merge is the path parameters over what is kept: every path
    parameter is in it with its path value, and a function with a
    variadic-keyword parameter loses no key. *)
Theorem path_parameters_override h request kw t :
  ∃ t' out,
    merge_kw h request kw t = (t', Ok out)
    ∧ invoked t' = invoked t
    ∧ out = path_kw request ∪ kept h kw
    ∧ path_kw request ⊆ out
    ∧ (_has_var_kw_arg h = true → out = path_kw request ∪ default ∅ kw).
Proof.
  destruct (merge_kw_spec h request kw t) as (t' & Hm & Ht').
  exists t', (path_kw request ∪ kept h kw).
  split; [done |]. split; [done |]. split; [done |].
  split; [apply map_union_subseteq_l |].
  intros Hvar. unfold kept. rewrite Hvar. by destruct kw.
Qed.

Lemma check_required_passes h kw :
  check_required h kw = Ok (Next tt) →
  Forall (λ nm, is_Some (kw !! nm)) (_required_kw_args h).
Proof.
  unfold check_required.
  destruct (filter _ (_required_kw_args h)) as [|nm rest] eqn:Hf; [| done].
  intros _. apply Forall_forall. intros nm Hnm.
  destruct (decide (is_Some (kw !! nm))) as [|Hno]; [done |].
  assert (nm ∈ filter (λ nm, negb (bool_decide (is_Some (kw !! nm))))
                 (_required_kw_args h)) as Hin.
  { apply list_elem_of_filter. split; [| done].
    by rewrite bool_decide_false. }
  rewrite Hf in Hin. by apply elem_of_nil in Hin.
Qed.

Lemma invoke_invoked h kw t :
  invoked (invoke h kw t).1 = invoked t ++ [kw].
Proof.
  unfold invoke. unfold_monad. simpl.
  destruct (call (_func h) kw) as [r|e]; [done |].
  by destruct (exn_cls e).
Qed.

(** A call of the adapter invokes the function at most once, and then
    with a mapping that has every required keyword-only name, and the
    request object under [request] when the function takes it. *)
Theorem handler_called_only_with_required_names lib h request t :
  invoked (RequestHandler_call lib h request t).1 = invoked t
  ∨ ∃ kw,
      invoked (RequestHandler_call lib h request t).1 = invoked t ++ [kw]
      ∧ Forall (λ nm, is_Some (kw !! nm)) (_required_kw_args h)
      ∧ (_has_request_arg h = true →
         kw !! "request" = Some (PyObject "request")).
Proof.
  unfold RequestHandler_call. unfold_monad.
  destruct (read_kw lib h request) as [[kw|r]|e]; simpl; [| by left | by left].
  destruct (merge_kw_spec h request kw t) as (t' & -> & Ht').
  set (out := path_kw request ∪ kept h kw).
  destruct (check_required h (inject_request h out)) as [[[]|r]|e] eqn:Hreq;
    simpl; [| left; done | left; done].
  right. exists (inject_request h out).
  split; [rewrite invoke_invoked; by f_equal |].
  split; [by apply check_required_passes |].
  intros Hreqarg. unfold inject_request. rewrite Hreqarg.
  apply lookup_insert_eq.
Qed.

Lemma merge_kw_none h request t :
  merge_kw h request None t = (t, Ok (path_kw request)).
Proof. reflexivity. Qed.

(** When the function needs no keyword argument, or the request is
    neither a POST nor a GET with a query string, nothing is read from
    the request, not even a body that cannot be decoded: the mapping is
    that of the path parameters alone, none of them dropped, and it is
    what the function is called with once the request object is added
    and no required name is missing. *)
Theorem only_path_parameters_when_nothing_is_read lib h request t :
  needs_kw h = false
  ∨ (method request ≠ "POST"
     ∧ (method request ≠ "GET" ∨ query_string request = "")) →
  read_kw lib h request = Ok (Next None)
  ∧ (merge_kw h request None t).2 = Ok (path_kw request)
  ∧ (check_required h (inject_request h (path_kw request)) = Ok (Next tt) →
     invoked (RequestHandler_call lib h request t).1
     = invoked t ++ [inject_request h (path_kw request)]).
Proof.
  intros Hcase.
  assert (read_kw lib h request = Ok (Next None)) as Hread.
  { unfold read_kw. destruct Hcase as [-> | [Hpost Hget]]; [done |].
    destruct (needs_kw h); [| done].
    destruct (String.eqb_spec (method request) "POST"); [done |].
    unfold_monad.
    destruct (String.eqb_spec (method request) "GET"); [| done].
    destruct Hget as [| ->]; done. }
  split; [done |]. split; [done |].
  intros Hreq. unfold RequestHandler_call. unfold_monad.
  rewrite Hread, merge_kw_none, Hreq. by rewrite invoke_invoked.
Qed.

Lemma only_path_parameters_when_nothing_is_read_witness :
  (method put_request ≠ "POST"
   ∧ (method put_request ≠ "GET" ∨ query_string put_request = ""))
  ∧ invoked (RequestHandler_call sample_lib index_handler put_request
               (mkTrace [] [])).1
    = [ <["request" := PyObject "request"]> (path_kw put_request) ].
Proof.
  assert (method put_request ≠ "POST"
          ∧ (method put_request ≠ "GET" ∨ query_string put_request = ""))
    as H by (split; [discriminate | left; discriminate]).
  split; [exact H |].
  destruct (only_path_parameters_when_nothing_is_read sample_lib index_handler
              put_request (mkTrace [] []) (or_intror H)) as (_ & _ & Hcall).
  exact (Hcall eq_refl).
Defined.

(** Merging the path parameters logs one warning for each of them that
    is already a key of the mapping, in order, and nothing else. *)
Theorem collisions_are_warned_once items (kw : kwmap) t :
  NoDup items.*1 →
  warnings (merge_match_info items kw t).1
  = warnings t
    ++ map duplicate_warning (filter (λ kv, is_Some (kw !! kv.1)) items).
Proof.
  revert kw t. induction items as [|[k v] items IH]; intros kw t Hnd.
  - simpl. by rewrite app_nil_r.
  - rewrite fmap_cons in Hnd. apply NoDup_cons in Hnd as [Hk Hnd].
    assert (filter (λ kv : string * string,
                      is_Some (<[k:=PyStr v]> kw !! kv.1)) items
            = filter (λ kv, is_Some (kw !! kv.1)) items) as Hsame.
    { apply OrmExtra.filter_ext_elem. intros [k' v'] Hin. simpl.
      rewrite lookup_insert_ne; [done |]. intros ->. apply Hk.
      apply list_elem_of_fmap. by exists (k', v'). }
    simpl merge_match_info. unfold_monad. rewrite filter_cons. simpl.
    case_bool_decide as Hdup; simpl.
    + rewrite IH, Hsame by done. simpl.
      rewrite decide_True by done. by rewrite <- app_assoc.
    + rewrite IH, Hsame by done. by rewrite decide_False.
Qed.

Lemma collisions_are_warned_once_witness :
  NoDup ([("id", "7"); ("name", "path")] : list (string * string)).*1
  ∧ warnings (merge_match_info [("id", "7"); ("name", "path")]
                ({["name" := PyStr "Bob"]} : kwmap) (mkTrace [] [])).1
    = [("Duplicate arg name in named arg and kw args: %s", [PyStr "name"])].
Proof.
  assert (NoDup ([("id", "7"); ("name", "path")]
                   : list (string * string)).*1) as H
    by (apply (bool_decide_unpack _); vm_compute; exact I).
  split; [exact H |].
  rewrite (collisions_are_warned_once [("id", "7"); ("name", "path")]
             {["name" := PyStr "Bob"]} (mkTrace [] []) H).
  reflexivity.
Defined.

(** ** Content types *)





(** A form that sends [name] twice: the first value is the one bound. *)
Example repeated_form_field :
  read_kw sample_lib user_handler form_post
  = Ok (Next (Some {["name" := PyStr "A"; "email" := PyStr "a@b.c"]})).
Proof.
  rewrite (post_form_is_read sample_lib user_handler form_post
             "application/x-www-form-urlencoded; charset=utf-8");
    done.
Qed.

(** ** Registration of a module *)

Lemma request_loop_raises fn found ps e :
  for_each (request_step fn) found ps = Raise e → e = misplaced_request fn.
Proof.
  revert found. induction ps as [|p ps IH]; intros found; [done |].
  simpl for_each. unfold request_step at 1.
  destruct (String.eqb (name p) "request"); [apply IH |].
  destruct (found && _); [by intros [= <-] | apply IH].
Qed.

(** The only error [add_route] has for a function with a method and a
    path is that of the misplaced [request]. *)
Lemma add_route_raises fn e :
  is_Some (__method__ fn) → is_Some (__route__ fn) →
  add_route fn = Raise e → e = misplaced_request fn.
Proof.
  intros [m Hm] [r Hr]. unfold add_route, RequestHandler_init.
  rewrite Hm, Hr. unfold_monad.
  destruct (has_request_arg fn) as [found|e'] eqn:Hreq; [done |].
  intros [= <-]. by apply (request_loop_raises fn false (parameters fn)).
Qed.

Lemma candidates_cons entry entries :
  candidates (entry :: entries)
  = match entry.2 with
    | MFunction fn => if is_candidate entry then fn :: candidates entries
                      else candidates entries
    | MOther _ => candidates entries
    end.
Proof.
  unfold candidates. simpl. destruct entry.2; [| done].
  by destruct (is_candidate entry).
Qed.

Lemma register_skip entry routes :
  is_candidate entry = false → register entry routes = (routes, Ok tt).
Proof.
  unfold register, is_candidate.
  destruct (startswith entry.1 "_"); [done |]. simpl.
  destruct entry.2 as [fn|v]; [| done]. by intros ->.
Qed.

Lemma register_candidate name_ fn routes :
  is_candidate (name_, MFunction fn) = true →
  register (name_, MFunction fn) routes
  = match add_route fn with
    | Ok r => (routes ++ [r], Ok tt)
    | Raise e => (routes, Raise e)
    end
  ∧ is_Some (__method__ fn) ∧ is_Some (__route__ fn).
Proof.
  unfold register, is_candidate. simpl.
  destruct (startswith name_ "_"); [done |]. simpl. intros Hc. rewrite Hc.
  unfold_monad. split; [by destruct (add_route fn) |].
  destruct (__method__ fn), (__route__ fn); simpl in *; try done;
    by rewrite ?andb_false_r in Hc.
Qed.

(** Scanning a module registers its public functions that carry a
    method and a path, in the order of [dir], and nothing else; private
    names, other values and functions without decoration are passed
    over without an error.  The scan stops at the first function whose
    [request] parameter is misplaced, with that error: the routes added
    are those of the functions before it, in order, and none of a
    function after it. *)
Theorem module_scan_registers_decorated_functions entries routes :
  ∃ rs,
    (register_all entries routes).1 = routes ++ rs
    ∧ match (register_all entries routes).2 with
      | Ok _ => Forall2 (λ fn r, add_route fn = Ok r) (candidates entries) rs
      | Raise e =>
          ∃ before fn after,
            candidates entries = before ++ fn :: after
            ∧ Forall2 (λ fn r, add_route fn = Ok r) before rs
            ∧ add_route fn = Raise e
            ∧ e = misplaced_request fn
      end.
Proof.
  revert routes. induction entries as [|[nm m] entries IH]; intros routes.
  - exists []. split; [by rewrite app_nil_r | constructor].
  - change (register_all ((nm, m) :: entries) routes)
      with ((register (nm, m);; register_all entries) routes).
    unfold_monad. rewrite candidates_cons. simpl.
    destruct (is_candidate (nm, m)) eqn:Hc.
    + destruct m as [fn|v];
        [| unfold is_candidate in Hc; simpl in Hc;
           by rewrite andb_false_r in Hc].
      destruct (register_candidate nm fn routes Hc) as (-> & Hm & Hr).
      destruct (add_route fn) as [r|e] eqn:Hadd.
      * destruct (IH (routes ++ [r])) as (rs & Hst & Hres).
        exists (r :: rs). split; [by rewrite Hst, <- app_assoc |].
        destruct (register_all entries (routes ++ [r])).2 as [[]|e].
        -- by constructor.
        -- destruct Hres as (before & fn' & after & Hcs & Hbefore & Hfn').
           exists (fn :: before), fn', after.
           split; [by rewrite Hcs |]. split; [by constructor | done].
      * exists []. split; [by rewrite app_nil_r |]. simpl.
        exists [], fn, (candidates entries).
        split; [done |]. split; [constructor |]. split; [done |].
        by apply add_route_raises.
    + rewrite (register_skip _ routes Hc).
      destruct (IH routes) as (rs & Hst & Hres). exists rs.
      split; [done |]. destruct m; exact Hres.
Qed.

(** A module whose second handler has a misplaced [request]: the first
    is registered, the third is not reached. *)
Example scan_stops_at_the_misplaced_request :
  (register_all [("a_index", MFunction index_fn);
                 ("blog", MFunction blog_fn);
                 ("user", MFunction user_fn)] []).2
  = Raise (misplaced_request blog_fn)
  ∧ map (λ r : route, (r.1.1, r.1.2, __name__ (_func r.2)))
      (register_all [("a_index", MFunction index_fn);
                     ("blog", MFunction blog_fn);
                     ("user", MFunction user_fn)] []).1
    = [("GET", "/", "index")].
Proof. split; reflexivity. Qed.

Example handlers_module_routes :
  (register_all handlers_module []).2 = Ok tt
  ∧ map (λ r : route, (r.1.1, r.1.2, __name__ (_func r.2)))
      (register_all handlers_module []).1
    = [("GET", "/", "index"); ("GET", "/user/{id}", "user")].
Proof. split; reflexivity. Qed.

Lemma count_char_cons c c' (s : string) :
  count_char c (String c' s)
  = (if Ascii.eqb c c' then 1 else 0) + count_char c s.
Proof. reflexivity. Qed.

Lemma rfind_char_cons c c' (s : string) :
  rfind_char c (String c' s)
  = match rfind_char c s with
    | Some i => Some (S i)
    | None => if Ascii.eqb c c' then Some 0 else None
    end.
Proof. reflexivity. Qed.

Lemma rfind_char_none c s : rfind_char c s = None ↔ count_char c s = 0.
Proof.
  induction s as [|c' s IH]; [done |].
  rewrite rfind_char_cons, count_char_cons.
  destruct (rfind_char c s) as [i|].
  - split; [done |]. intros H.
    assert (count_char c s = 0) as H0 by lia.
    apply IH in H0. done.
  - destruct IH as [IH _]. rewrite (IH eq_refl).
    destruct (Ascii.eqb c c'); split; done.
Qed.

Lemma substring_all (s : string) : String.substring 0 (String.length s) s = s.
Proof. induction s as [|c s IH]; [done |]. simpl. by rewrite IH. Qed.

Lemma rfind_char_split c s i :
  rfind_char c s = Some i →
  s = String.substring 0 i s
        +:+ String c (String.substring (S i) (String.length s - S i) s)
  ∧ count_char c (String.substring (S i) (String.length s - S i) s) = 0.
Proof.
  revert i. induction s as [|c' s IH]; intros i; [done |].
  rewrite rfind_char_cons.
  destruct (rfind_char c s) as [j|] eqn:Hj.
  - intros [= <-]. destruct (IH j eq_refl) as [Hs Hcount].
    change (String.length (String c' s) - S (S j))
      with (String.length s - S j).
    change (String.substring (S (S j)) (String.length s - S j) (String c' s))
      with (String.substring (S j) (String.length s - S j) s).
    change (String.substring 0 (S j) (String c' s))
      with (String c' (String.substring 0 j s)).
    split; [| done]. rewrite OrmSpec.append_cons. by rewrite <- Hs.
  - destruct (Ascii.eqb_spec c c') as [<-|_]; [| done].
    intros [= <-].
    change (String.length (String c s) - 1) with (String.length s - 0).
    rewrite Nat.sub_0_r.
    change (String.substring 1 (String.length s) (String c s))
      with (String.substring 0 (String.length s) s).
    rewrite substring_all. split; [done |]. by apply rfind_char_none.
Qed.

(** [add_routes] imports the module named as it stands when the name
    has no dot; otherwise it splits the name at its last dot, into a
    package and a dot-free name that make up the module name again,
    and takes the module of that name from the package. *)
Theorem module_name_is_split_at_last_dot loader module_name routes :
  (count_char "." module_name = 0 →
   add_routes loader module_name routes
   = (mod_ ← lift (load_top loader module_name); register_all mod_) routes)
  ∧ (count_char "." module_name ≠ 0 →
     ∃ package nm,
       module_name = package +:+ "." +:+ nm
       ∧ count_char "." nm = 0
       ∧ add_routes loader module_name routes
         = (mod_ ← lift (load_from loader package nm); register_all mod_)
             routes).
Proof.
  unfold add_routes, rfind. split.
  - intros H0. apply rfind_char_none in H0. by rewrite H0.
  - intros Hne.
    destruct (rfind_char "." module_name) as [i|] eqn:Hi;
      [| by apply rfind_char_none in Hi].
    destruct (rfind_char_split "." module_name i Hi) as [Hsplit Hcount].
    exists (String.substring 0 i module_name),
      (String.substring (S i) (String.length module_name - S i) module_name).
    split; [exact Hsplit |]. split; [exact Hcount |].
    unfold slice_to, slice_after.
    replace (Z.of_nat i =? -1)%Z with false by (symmetry; apply Z.eqb_neq; lia).
    replace (Z.to_nat (Z.of_nat i + 1)) with (S i) by lia.
    by rewrite Nat2Z.id.
Qed.

End LxfwebExtra.
